(** * Materials template generator: grid assembly, comment stripping, rendering

    A shallow embedding of [Scripts/generate_materials_template.py].  The
    script reads a JSON list of materials, groups them by template row, packs
    every row into a dense sequence of cells (row titles, materials, fillers)
    and renders the rows as an HTML table. *)

From Stdlib Require Import ZArith List String Ascii Lia.
From stdpp Require Import base option list strings gmap sorting.
From Equations Require Import Equations.

Local Open Scope string_scope.
Local Open Scope list_scope.
Local Open Scope Z_scope.

(** ** Data model *)

(** One element of the JSON document, reduced to the fields the script
    reads as text: [elem["template"]["row"]], [str(elem["template"]["column"])]
    and [elem["color_key"]]. *)
Record Material := {
  template_row : string;
  template_column : string;
  color_key : string
}.

(** The tuple [(row_name, col_order, col_name, elem)] appended to [d_vals]. *)
Record Entry := {
  row_name : string;
  col_order : Z;
  col_name : string;
  elem : Material
}.

(** An item of [output_col_values]: a [str] (row title), a tuple (material)
    or [None] (filler). *)
Inductive Cell :=
| Label (text : string)
| Data (v : Entry)
| Blank.

(** ** Grid assembly: the [while ci < len(input_col_values)] loop *)

Module Assembler.

(** The loop variables. *)
Record State := {
  ci : nat;
  labels_count : Z;
  cur_row_name : option string;
  output_col_values : list Cell
}.

(** [ci = 0], [labels_count = 0], [cur_row_name = None],
    [output_col_values = []]. *)
Definition init : State :=
  {| ci := 0; labels_count := 0; cur_row_name := None; output_col_values := [] |}.

(** [input_col_value[0] != cur_row_name], where the right-hand side is
    [None] or a [str]. *)
Definition py_ne (name : string) (cur : option string) : bool :=
  match cur with
  | None => true
  | Some c => negb (String.eqb name c)
  end.

Lemma py_ne_false (name : string) (cur : option string) :
  py_ne name cur = false <-> cur = Some name.
Proof.
  destruct cur as [c|]; cbn; [|split; discriminate].
  rewrite negb_false_iff, String.eqb_eq. split; congruence.
Qed.

Lemma py_ne_same (name : string) : py_ne name (Some name) = false.
Proof. now apply py_ne_false. Qed.

(** One pass through the body of the loop. *)
Definition loop_body (input_col_values : list Entry) (st : State) : State :=
  match input_col_values !! ci st with
  | None => st
  | Some input_col_value =>
      if col_order input_col_value + labels_count st
           <=? Z.of_nat (length (output_col_values st))
      then
        if py_ne (row_name input_col_value) (cur_row_name st)
        then {| ci := ci st;
                labels_count := labels_count st + 1;
                cur_row_name := Some (row_name input_col_value);
                output_col_values :=
                  output_col_values st ++ [Label (row_name input_col_value)] |}
        else {| ci := S (ci st);
                labels_count := labels_count st;
                cur_row_name := cur_row_name st;
                output_col_values :=
                  output_col_values st ++ [Data input_col_value] |}
      else {| ci := ci st;
              labels_count := labels_count st;
              cur_row_name := cur_row_name st;
              output_col_values := output_col_values st ++ [Blank] |}
  end.

(** The number of passes still to run when the records [rest] are left, with
    [labels] titles emitted, [cur] the current title and [len] cells out:
    the fillers up to the target, one title when the name changes, and the
    material itself. *)
Fixpoint passes_left (rest : list Entry) (labels : Z) (cur : option string)
    (len : Z) : nat :=
  match rest with
  | [] => 0
  | v :: rest' =>
      let blanks := Z.to_nat (col_order v + labels - len) in
      let lab := if py_ne (row_name v) cur then 1 else 0 in
      (blanks + Z.to_nat lab + 1 +
       passes_left rest' (labels + lab) (Some (row_name v))
         (len + Z.of_nat blanks + lab + 1))%nat
  end.

(** The variant of the loop: the passes left in the state [st]. *)
Definition variant (input_col_values : list Entry) (st : State) : nat :=
  passes_left (drop (ci st) input_col_values) (labels_count st)
    (cur_row_name st) (Z.of_nat (length (output_col_values st))).

Lemma succ_add_eq (x y p q : nat) :
  S x = y -> p = q -> (S (x + p) = y + q)%nat.
Proof. lia. Qed.

(** While records are left, a pass of the body uses up exactly one pass of
    the variant. *)
Lemma loop_body_variant (input_col_values : list Entry) (st : State) :
  (ci st < length input_col_values)%nat ->
  S (variant input_col_values (loop_body input_col_values st))
  = variant input_col_values st.
Proof.
  intros Hlt. unfold variant, loop_body.
  destruct (lookup_lt_is_Some_2 _ _ Hlt) as [v Hv]. rewrite Hv.
  rewrite (drop_S _ _ _ Hv). cbn [passes_left].
  destruct (Z.leb_spec (col_order v + labels_count st)
              (Z.of_nat (length (output_col_values st)))) as [Hle | Hgt].
  - destruct (py_ne (row_name v) (cur_row_name st)) eqn:Hne; cbn.
    + rewrite (drop_S _ _ _ Hv). cbn [passes_left].
      rewrite length_app. cbn [py_ne]. rewrite !String.eqb_refl. cbn.
      apply succ_add_eq; [lia | f_equal; lia].
    + apply py_ne_false in Hne. rewrite Hne, length_app. cbn.
      apply (succ_add_eq 0); [lia | f_equal; lia].
  - cbn. rewrite (drop_S _ _ _ Hv). cbn [passes_left].
    rewrite length_app. cbn.
    apply succ_add_eq; [lia | f_equal; lia].
Qed.

(** The loop: run the body while [ci < len(input_col_values)]. *)
Equations? while_loop (input_col_values : list Entry) (st : State) : State
  by wf (variant input_col_values st) lt :=
while_loop input_col_values st
  with lt_dec (ci st) (length input_col_values) := {
  | left Hlt => while_loop input_col_values (loop_body input_col_values st)
  | right _ => st }.
Proof.
  rewrite <- (loop_body_variant input_col_values st Hlt). lia.
Qed.

(** The physical row of one bucket: [output_col_values] after the loop. *)
Definition assemble (input_col_values : list Entry) : list Cell :=
  output_col_values (while_loop input_col_values init).

(** *** Observations on a physical row *)

(** The records wrapped by the [Data] cells, left to right. *)
Fixpoint data_records (row : list Cell) : list Entry :=
  match row with
  | [] => []
  | Data v :: row' => v :: data_records row'
  | _ :: row' => data_records row'
  end.

(** The texts of the [Label] cells, left to right. *)
Fixpoint label_texts (row : list Cell) : list string :=
  match row with
  | [] => []
  | Label t :: row' => t :: label_texts row'
  | _ :: row' => label_texts row'
  end.

Definition count_data (row : list Cell) : nat := length (data_records row).
Definition count_labels (row : list Cell) : nat := length (label_texts row).

(** The text of the nearest [Label] cell at the end of [row], if any. *)
Definition last_label (row : list Cell) : option string :=
  last (label_texts row).

(** The names of the maximal runs of consecutive equal names. *)
Fixpoint run_names (names : list string) : list string :=
  match names with
  | [] => []
  | x :: rest =>
      match rest with
      | [] => [x]
      | y :: _ => if String.eqb x y then run_names rest else x :: run_names rest
      end
  end.

(** The number of maximal runs of consecutive equal names. *)
Definition count_runs (names : list string) : nat := length (run_names names).

(** Column orders that start at 0 or later and strictly increase. *)
Fixpoint cols_increasing_from (lo : Z) (input : list Entry) : bool :=
  match input with
  | [] => true
  | v :: rest => (lo <=? col_order v) && cols_increasing_from (col_order v + 1) rest
  end.

Definition cols_strictly_increasing (input : list Entry) : bool :=
  cols_increasing_from 0 input.

End Assembler.

Import Assembler.

(** ** Source loading: [comment_re.sub(r"\1", line)] *)

Module Loader.

Definition newline : ascii := "010"%char.
Definition slash : ascii := "/"%char.

(** [$] without the MULTILINE flag: the end of the text, or the place just
    before a newline that ends the text. *)
Definition at_end (s : string) : bool :=
  match s with
  | EmptyString => true
  | String c EmptyString => Ascii.eqb c newline
  | String _ (String _ _) => false
  end.

(** What is left after the longest run of characters matched by [.], which
    matches every character but the newline.  A shorter run never helps the
    pattern: it would stop before a character that is not a newline, where
    [$] does not match. *)
Fixpoint skip_dots (s : string) : string :=
  match s with
  | EmptyString => s
  | String c s' => if Ascii.eqb c newline then s else skip_dots s'
  end.

(** The group [(//.+)] followed by [$], tried at the start of [s]: two
    slashes, at least one more character of the line, then the end.  Gives
    the text after the match. *)
Definition match_comment (s : string) : option string :=
  match s with
  | String c1 (String c2 (String c3 s')) =>
      if Ascii.eqb c1 slash && Ascii.eqb c2 slash && negb (Ascii.eqb c3 newline)
      then let rest := skip_dots s' in
           if at_end rest then Some rest else None
      else None
  | _ => None
  end.

(** The pattern [^(.*?)(//.+)?$] tried at the start of the line.  The lazy
    [(.*?)] starts empty and grows by one character at a time; at every
    length the optional group is tried first, then [$] alone.  Gives group 1
    and the text after the match. *)
Fixpoint match_line (s : string) : option (string * string) :=
  match match_comment s with
  | Some rest => Some (EmptyString, rest)
  | None =>
      if at_end s then Some (EmptyString, s)
      else
        match s with
        | EmptyString => None
        | String c s' =>
            if Ascii.eqb c newline then None
            else
              match match_line s' with
              | Some (group1, rest) => Some (String c group1, rest)
              | None => None
              end
        end
  end.

(** [comment_re.sub(r"\1", line)]: the match, which can only start at the
    start of the line, is replaced by group 1; a line without a match is
    returned as it is. *)
Definition comment_sub (line : string) : string :=
  match match_line line with
  | Some (group1, rest) => group1 +:+ rest
  | None => line
  end.

(** [for line in f]: the lines of a text, each with its newline. *)
Fixpoint readlines (text : string) : list string :=
  match text with
  | EmptyString => []
  | String c text' =>
      if Ascii.eqb c newline then String c EmptyString :: readlines text'
      else
        match readlines text' with
        | [] => [String c EmptyString]
        | line :: lines => String c line :: lines
        end
  end.

(** [json_content], built by [json_content += comment_re.sub(r"\1", line)]. *)
Definition strip_comments (lines : list string) : string :=
  fold_left (fun json_content line => json_content +:+ comment_sub line)
    lines EmptyString.

(** The strip as the specification words it: everything from the first
    occurrence of the marker [//] to the end of the line is removed, the part
    before it and the line end are kept. *)
Fixpoint strip_from_first_marker (line : string) : string :=
  match line with
  | EmptyString => EmptyString
  | String c line' =>
      if Ascii.eqb c newline then line
      else
        match line' with
        | String c' _ =>
            if Ascii.eqb c slash && Ascii.eqb c' slash then skip_dots line'
            else String c (strip_from_first_marker line')
        | EmptyString => line
        end
  end.

(** The first marker [//] of the line is directly followed by the line end. *)
Fixpoint marker_at_line_end (line : string) : bool :=
  match line with
  | EmptyString => false
  | String c line' =>
      if Ascii.eqb c newline then false
      else
        match line' with
        | String c' rest =>
            if Ascii.eqb c slash && Ascii.eqb c' slash then at_end rest
            else marker_at_line_end line'
        | EmptyString => false
        end
  end.

(** A line as [for line in f] gives it: a newline can only be the last
    character. *)
Fixpoint single_line (line : string) : bool :=
  match line with
  | EmptyString => true
  | String c line' =>
      if Ascii.eqb c newline then
        match line' with EmptyString => true | String _ _ => false end
      else single_line line'
  end.

End Loader.

(** ** Row grouping: the "Prepare data" part of [main] *)

(** The exceptions [main] can end with. *)
Inductive Exn :=
| FileNotFoundError
| JSONDecodeError
| AssertionError
| ValueError.

Inductive Result (A : Type) :=
| Ok (a : A)
| Raise (e : Exn).
Arguments Ok {A} a.
Arguments Raise {A} e.

Definition bind {A B : Type} (r : Result A) (k : A -> Result B) : Result B :=
  match r with
  | Ok a => k a
  | Raise e => Raise e
  end.

Notation "'let*' x := r 'in' k" := (bind r (fun x => k))
  (at level 10, x name, r at level 100, k at level 200).

Module Grouper.

Definition bar : ascii := "|"%char.

(** [text.split("|")]. *)
Fixpoint split_bar (text : string) : list string :=
  match text with
  | EmptyString => [EmptyString]
  | String c text' =>
      if Ascii.eqb c bar then EmptyString :: split_bar text'
      else
        match split_bar text' with
        | [] => [String c EmptyString]
        | part :: parts => String c part :: parts
        end
  end.

(** [assert(cond)]. *)
Definition py_assert (cond : bool) : Result unit :=
  if cond then Ok tt else Raise AssertionError.

(** [sorted(v, key=itemgetter(1))]: the stable sort by column order. *)
Fixpoint insert_by_col (x : Entry) (sorted : list Entry) : list Entry :=
  match sorted with
  | [] => [x]
  | y :: sorted' =>
      if col_order x <=? col_order y then x :: sorted
      else y :: insert_by_col x sorted'
  end.

Definition sorted_by_col (v : list Entry) : list Entry :=
  foldr insert_by_col [] v.

(** [sorted(d.keys())]. *)
Fixpoint insert_key (k : Z) (sorted : list Z) : list Z :=
  match sorted with
  | [] => [k]
  | k' :: sorted' =>
      if k <=? k' then k :: sorted else k' :: insert_key k sorted'
  end.

Definition sorted_keys (d : gmap Z (list Entry)) : list Z :=
  foldr insert_key [] (map fst (map_to_list d)).

Section WithInt.

(** [int(text)], [None] when it raises [ValueError]. *)
Variable py_int : string -> option Z.

Definition int_of (text : string) : Result Z :=
  match py_int text with
  | Some z => Ok z
  | None => Raise ValueError
  end.

(** The body of [for elem in data]. *)
Definition add_elem (d : gmap Z (list Entry)) (elem : Material)
    : Result (gmap Z (list Entry)) :=
  let row_parts := split_bar (template_row elem) in
  let* _ := py_assert (length row_parts =? 2)%nat in
  let* row_order := int_of (nth 0 row_parts EmptyString) in
  let row_name := nth 1 row_parts EmptyString in
  let col_parts := split_bar (template_column elem) in
  let* col :=
    if (length col_parts =? 2)%nat
    then
      let col_name := nth 1 col_parts EmptyString in
      let* col_order := int_of (nth 0 col_parts EmptyString) in
      Ok (col_name, col_order)
    else
      let* _ := py_assert (length col_parts =? 1)%nat in
      let* col_order := int_of (nth 0 col_parts EmptyString) in
      Ok (EmptyString, col_order) in
  let d_vals := default [] (d !! row_order) in
  Ok (<[row_order := d_vals ++ [Build_Entry row_name (snd col) (fst col) elem]]> d).

(** [for elem in data]. *)
Fixpoint add_all (d : gmap Z (list Entry)) (data : list Material)
    : Result (gmap Z (list Entry)) :=
  match data with
  | [] => Ok d
  | elem :: data' => let* d' := add_elem d elem in add_all d' data'
  end.

(** The dictionary [d] after the columns of every row are sorted. *)
Definition prepare (data : list Material) : Result (gmap Z (list Entry)) :=
  let* d := add_all ∅ data in
  Ok (sorted_by_col <$> d).

End WithInt.

(** The template of an element is rejected by the two assertions: its row
    does not split into two parts, or its column into one or two. *)
Definition malformed (elem : Material) : bool :=
  negb (length (split_bar (template_row elem)) =? 2)%nat
  || (negb (length (split_bar (template_column elem)) =? 1)%nat
      && negb (length (split_bar (template_column elem)) =? 2)%nat).

(** The number of bars in a text. *)
Fixpoint count_bars (text : string) : nat :=
  match text with
  | EmptyString => 0
  | String c text' =>
      if Ascii.eqb c bar then S (count_bars text') else count_bars text'
  end.

(** The text of the row order and of the column order of an element. *)
Definition row_order_text (elem : Material) : string :=
  nth 0 (split_bar (template_row elem)) EmptyString.

Definition col_order_text (elem : Material) : string :=
  nth 0 (split_bar (template_column elem)) EmptyString.

(** The name parts of the template: the second part of the row, and the
    second part of the column when there is one. *)
Definition row_name_text (elem : Material) : string :=
  nth 1 (split_bar (template_row elem)) EmptyString.

Definition col_name_text (elem : Material) : string :=
  if (length (split_bar (template_column elem)) =? 2)%nat
  then nth 1 (split_bar (template_column elem)) EmptyString
  else EmptyString.

(** The template passes the assertions and [int] reads both orders. *)
Definition well_formed (py_int : string -> option Z) (elem : Material) : bool :=
  negb (malformed elem)
  && bool_decide (is_Some (py_int (row_order_text elem)))
  && bool_decide (is_Some (py_int (col_order_text elem))).

(** The entry [e] is the one the body of the loop builds for its element,
    and [k] is the row order of that element. *)
Definition entry_of_element (py_int : string -> option Z) (k : Z) (e : Entry)
    : Prop :=
  py_int (row_order_text (elem e)) = Some k
  /\ py_int (col_order_text (elem e)) = Some (col_order e)
  /\ row_name e = row_name_text (elem e)
  /\ col_name e = col_name_text (elem e).

(** A bucket while the dictionary is filled: it is not empty, and every
    entry is the entry of its element, under the row order of the element. *)
Definition bucket_ok (py_int : string -> option Z) (k : Z) (v : list Entry)
    : Prop :=
  v <> [] /\ Forall (entry_of_element py_int k) v.

(** All the entries of the dictionary, bucket after bucket. *)
Definition all_entries (d : gmap Z (list Entry)) : list Entry :=
  map_to_list d ≫= snd.

(** Column orders that do not decrease from left to right. *)
Definition cols_sorted (v : list Entry) : Prop :=
  StronglySorted (fun a b => col_order a <= col_order b) v.

End Grouper.

(** ** Rendering: the "Generate HTML" part of [main] *)

Module Renderer.

(** [if c:] on a cell: [None] and the empty string are false. *)
Definition truthy (c : Cell) : bool :=
  match c with
  | Label EmptyString => false
  | Label _ => true
  | Data _ => true
  | Blank => false
  end.

Definition filler_td : string := "<td style='width: 50px;'>&nbsp;</td>".

(** The cell of the "Colors" sub-row. *)
Definition color_td (c : Cell) : string :=
  if truthy c then
    match c with
    | Data v =>
        "<td bgcolor='" +:+ color_key (elem v)
        +:+ "'class='border_top' style='width: 50px;'>&nbsp;</td>"
    | Label text =>
        "<td valign='middle' align='right' style='padding-right:5px;font-size:10px;'>"
        +:+ text +:+ "</td>"
    | Blank => filler_td
    end
  else filler_td.

(** The cell of the "Name" sub-row. *)
Definition name_td (c : Cell) : string :=
  if truthy c then
    match c with
    | Data v => "<td style='font-size:8px;'>" +:+ col_name v +:+ "</td>"
    | _ => "<td/>"
    end
  else "<td/>".

Section WithValues.

(** The text of the "Data" sub-row in structural mode: the mass times the
    density with two decimals, the strength and the stiffness, joined by
    bars.  These are floating point values and stay abstract. *)
Variable fmt_values : Material -> string.

(** The cell of the "Data" sub-row. *)
Definition value_td (is_structural : bool) (c : Cell) : string :=
  if truthy c then
    match c with
    | Data v =>
        "<td style='font-size:8px;'>"
        +:+ (if is_structural then fmt_values (elem v) else EmptyString)
        +:+ "</td>"
    | _ => "<td/>"
    end
  else "<td/>".

(** [html += ...] for every cell of the row. *)
Definition add_cells (td : Cell -> string) (html : string)
    (output_col_values : list Cell) : string :=
  fold_left (fun html c => html +:+ td c) output_col_values html.

(** "2. Render": the three sub-rows of one physical row. *)
Definition render_row (is_structural : bool) (html : string)
    (output_col_values : list Cell) : string :=
  let html := html +:+ "<tr>" in
  let html := add_cells color_td html output_col_values in
  let html := html +:+ "<tr>" in
  let html := add_cells name_td html output_col_values in
  let html := html +:+ "</tr>" in
  let html := html +:+ "<tr>" in
  let html := add_cells (value_td is_structural) html output_col_values in
  html +:+ "</tr>".

(** The whole document. *)
Definition render (is_structural : bool) (d : gmap Z (list Entry)) : string :=
  let html := "<html><head><title>Materials Template</title>" in
  let html := html +:+ "<style>tr.border_top td { border-top:1pt solid black;}</style>" in
  let html := html +:+ "</head><body>" in
  let spacing := if is_structural then "0" else "1" in
  let html :=
    html +:+ "<table style='border: 1px solid black' cellpadding=0 cellspacing="
    +:+ spacing +:+ ">" in
  let html :=
    fold_left
      (fun html k =>
         render_row is_structural html (assemble (default [] (d !! k))))
      (Grouper.sorted_keys d) html in
  let html := html +:+ "</table>" in
  html +:+ "</body></html>".

End WithValues.

(** A cell as the renderer sees it: a title that is the empty string is
    false in [if c:], like [None]. *)
Definition as_rendered (c : Cell) : Cell :=
  match c with
  | Label EmptyString => Blank
  | _ => c
  end.

(** [needle in text]. *)
Fixpoint contains (needle text : string) : bool :=
  String.prefix needle text
  || match text with
     | EmptyString => false
     | String _ text' => contains needle text'
     end.

(** The markup of a cell carries the top-border class. *)
Definition has_border_top (markup : string) : bool :=
  contains "class='border_top'" markup.

(** The cell at index [i] of the row comes right after a [Label] cell. *)
Definition after_label (row : list Cell) (i : nat) : bool :=
  match i with
  | O => false
  | S j => match row !! j with Some (Label _) => true | _ => false end
  end.

End Renderer.

(** ** The script *)

Module Script.

(** What the script leaves behind: the text printed and the files. *)
Record World := {
  stdout : list string;
  files : gmap string string
}.

Inductive Outcome :=
| Done
| Exit (status : Z)
| Raised (e : Exn).

Definition usage : string :=
  "Usage: generate_materials_template.py <path_to_materials_json> s|e".

Definition output_path : string := "materials_template.html".

(** [len(sys.argv) != 3 or (sys.argv[2] != "s" and sys.argv[2] != "e")]. *)
Definition bad_usage (argv : list string) : bool :=
  negb (length argv =? 3)%nat
  || (negb (String.eqb (nth 2 argv EmptyString) "s")
      && negb (String.eqb (nth 2 argv EmptyString) "e")).

Section WithLibrary.

(** [int(text)], [None] when it raises. *)
Variable py_int : string -> option Z.
(** [json.loads(text)] on a document whose elements have the fields the
    script reads, [None] when it raises. *)
Variable json_loads : string -> option (list Material).
(** The text of the values of a material in structural mode. *)
Variable fmt_values : Material -> string.

Definition main (argv : list string) (w : World) : Outcome * World :=
  if bad_usage argv then
    (Exit (-1), {| stdout := stdout w ++ [usage]; files := files w |})
  else
    match files w !! nth 1 argv EmptyString with
    | None => (Raised FileNotFoundError, w)
    | Some text =>
        let json_content := Loader.strip_comments (Loader.readlines text) in
        match json_loads json_content with
        | None => (Raised JSONDecodeError, w)
        | Some data =>
            let is_structural := String.eqb (nth 2 argv EmptyString) "s" in
            match Grouper.prepare py_int data with
            | Raise e => (Raised e, w)
            | Ok d =>
                let html := Renderer.render fmt_values is_structural d in
                (Done, {| stdout := stdout w;
                          files := <[output_path := html]> (files w) |})
            end
        end
    end.

End WithLibrary.

End Script.

(** ** Sample buckets *)

Module Samples.

Definition steel : Material :=
  {| template_row := "0|A"; template_column := "0"; color_key := "#404050" |}.

Definition entry (name : string) (col : Z) : Entry :=
  {| row_name := name; col_order := col; col_name := ""; elem := steel |}.

(** One record at column 3. *)
Definition lone3 : list Entry := [entry "A" 3].

(** Two records at column 0 under the titles A and B. *)
Definition clash : list Entry := [entry "A" 0; entry "B" 0].

(** Two records of one title at columns 0 and 1. *)
Definition pair : list Entry := [entry "A" 0; entry "A" 1].

(** A line whose comment marker is the last thing on it. *)
Definition bare_marker_line : string :=
  String "[" (String " " (String "/" (String "/" (String Loader.newline "")))).

(** A line with a value, a comment and a line end. *)
Definition commented_line : string :=
  "  [1, 2], // steel /// grey"
  +:+ String Loader.newline EmptyString.


(** A reader of decimal numerals, to stand for [int]. *)
Definition digit_of (c : ascii) : option Z :=
  let n := Z.of_nat (nat_of_ascii c) in
  if (48 <=? n) && (n <=? 57) then Some (n - 48) else None.

Fixpoint digits (acc : Z) (text : string) : option Z :=
  match text with
  | EmptyString => Some acc
  | String c text' =>
      match digit_of c with
      | Some d => digits (10 * acc + d) text'
      | None => None
      end
  end.

Definition decimal (text : string) : option Z :=
  match text with
  | EmptyString => None
  | String _ _ => digits 0 text
  end.

Definition iron : Material :=
  {| template_row := "0|Metals"; template_column := "0|Iron";
     color_key := "#404050" |}.

(** A material whose row has no name part. *)
Definition nameless : Material :=
  {| template_row := "1"; template_column := "0"; color_key := "#808080" |}.

Definition loads (text : string) : option (list Material) :=
  Some [iron; nameless].

Definition copper : Material :=
  {| template_row := "0|Metals"; template_column := "1|Copper";
     color_key := "#b87333" |}.

Definition oak : Material :=
  {| template_row := "1|Woods"; template_column := "0";
     color_key := "#806020" |}.

(** Three materials in two rows; the first row is given right to left. *)
Definition catalogue : list Material := [copper; oak; iron].

Definition loads_catalogue (text : string) : option (list Material) :=
  Some catalogue.

Definition entry_of (rn : string) (co : Z) (cn : string) (m : Material) : Entry :=
  {| row_name := rn; col_order := co; col_name := cn; elem := m |}.

(** The dictionary of the catalogue. *)
Definition catalogue_dict : gmap Z (list Entry) :=
  <[0 := [entry_of "Metals" 0 "Iron" iron; entry_of "Metals" 1 "Copper" copper]]>
    (<[1 := [entry_of "Woods" 0 "" oak]]> ∅).

Definition argv_esthetic : list string :=
  ["generate_materials_template.py"; "materials.json"; "e"].

Definition argv : list string :=
  ["generate_materials_template.py"; "materials.json"; "s"].

(** A directory with the input and an output of an earlier run. *)
Definition world : Script.World :=
  {| Script.stdout := [];
     Script.files :=
       <["materials.json" := "[]"]>
         (<["materials_template.html" := "<html></html>"]> ∅) |}.

End Samples.

(** ** Properties of the assembly loop *)

Section AssemblerFacts.

Implicit Types (input : list Entry) (st : State) (row : list Cell).

Lemma while_loop_unfold input st :
  while_loop input st =
  if bool_decide (ci st < length input)%nat
  then while_loop input (loop_body input st)
  else st.
Proof.
  rewrite while_loop_equation_1.
  destruct (lt_dec (ci st) (length input)) as [Hlt | Hge]; cbn.
  - now rewrite bool_decide_eq_true_2.
  - now rewrite bool_decide_eq_false_2.
Qed.

(** The rule of the while loop: an invariant of the body holds at the exit,
    where the loop condition is false. *)
Lemma while_loop_invariant (P : State -> Prop) input :
  (forall st, (ci st < length input)%nat -> P st -> P (loop_body input st)) ->
  forall st, P st ->
    P (while_loop input st) /\ (length input <= ci (while_loop input st))%nat.
Proof.
  intros Hbody st.
  remember (variant input st) as n eqn:Hn.
  revert st Hn. induction n as [n IH] using lt_wf_ind. intros st Hn HP.
  rewrite while_loop_unfold. case_bool_decide as Hlt.
  - apply (IH (variant input (loop_body input st))); auto.
    rewrite Hn, <- (loop_body_variant input st Hlt). lia.
  - split; [assumption | lia].
Qed.

(** The loop is the body iterated as many times as the variant says. *)
Lemma while_loop_iter input st :
  while_loop input st = Nat.iter (variant input st) (loop_body input) st.
Proof.
  remember (variant input st) as n eqn:Hn.
  revert st Hn. induction n as [|n IH]; intros st Hn;
    rewrite while_loop_unfold; case_bool_decide as Hlt.
  - pose proof (loop_body_variant input st Hlt). lia.
  - reflexivity.
  - rewrite Nat.iter_succ_r. apply IH.
    pose proof (loop_body_variant input st Hlt). lia.
  - exfalso. unfold variant in Hn. rewrite drop_ge in Hn by lia. discriminate.
Qed.

(** Every pass appends exactly one cell. *)
Lemma loop_body_length input st :
  (ci st < length input)%nat ->
  length (output_col_values (loop_body input st))
  = S (length (output_col_values st)).
Proof.
  intros Hlt. unfold loop_body.
  destruct (lookup_lt_is_Some_2 _ _ Hlt) as [v ->].
  repeat case_match; cbn; rewrite length_app; cbn; lia.
Qed.

Lemma loop_body_ci_le input st : (ci st <= ci (loop_body input st))%nat.
Proof. unfold loop_body. repeat case_match; cbn; lia. Qed.

Lemma data_records_app row1 row2 :
  data_records (row1 ++ row2) = data_records row1 ++ data_records row2.
Proof.
  induction row1 as [|[t|v|] row1 IH]; cbn; rewrite ?IH; reflexivity.
Qed.

Lemma label_texts_app row1 row2 :
  label_texts (row1 ++ row2) = label_texts row1 ++ label_texts row2.
Proof.
  induction row1 as [|[t|v|] row1 IH]; cbn; rewrite ?IH; reflexivity.
Qed.

Lemma variant_pos input st :
  (0 < variant input st)%nat -> (ci st < length input)%nat.
Proof.
  intros Hpos. destruct (decide (ci st < length input)%nat) as [|Hge]; [done|].
  unfold variant in Hpos. rewrite drop_ge in Hpos by lia. cbn in Hpos. lia.
Qed.

Lemma variant_iter input k : forall st,
  (k <= variant input st)%nat ->
  variant input (Nat.iter k (loop_body input) st) = (variant input st - k)%nat.
Proof.
  induction k as [|k IH]; intros st Hk; [cbn; lia|].
  assert (Hlt : (ci st < length input)%nat) by (apply variant_pos; lia).
  pose proof (loop_body_variant input st Hlt) as Hv.
  rewrite Nat.iter_succ_r, IH; lia.
Qed.

Lemma while_loop_ci input st :
  (ci st <= length input)%nat -> ci (while_loop input st) = length input.
Proof.
  intros Hle.
  destruct (while_loop_invariant (fun s => ci s <= length input)%nat input)
    with (st := st) as [H1 H2]; [|assumption|lia].
  intros s Hlt _. unfold loop_body.
  destruct (lookup_lt_is_Some_2 _ _ Hlt) as [v ->].
  repeat case_match; cbn; lia.
Qed.

(** The three branches of the body and the exit, on explicit states. *)
Lemma pass_blank input i labels cur row v :
  input !! i = Some v ->
  Z.of_nat (length row) < col_order v + labels ->
  while_loop input (Build_State i labels cur row)
  = while_loop input (Build_State i labels cur (row ++ [Blank])).
Proof.
  intros Hv Hgt. rewrite while_loop_unfold.
  rewrite bool_decide_eq_true_2 by (cbn; eapply lookup_lt_Some; eassumption).
  unfold loop_body; cbn [ci labels_count cur_row_name output_col_values]. rewrite Hv.
  destruct (Z.leb_spec (col_order v + labels) (Z.of_nat (length row)));
    [lia | reflexivity].
Qed.

Lemma pass_label input i labels cur row v :
  input !! i = Some v ->
  col_order v + labels <= Z.of_nat (length row) ->
  py_ne (row_name v) cur = true ->
  while_loop input (Build_State i labels cur row)
  = while_loop input
      (Build_State i (labels + 1) (Some (row_name v))
         (row ++ [Label (row_name v)])).
Proof.
  intros Hv Hle Hne. rewrite while_loop_unfold.
  rewrite bool_decide_eq_true_2 by (cbn; eapply lookup_lt_Some; eassumption).
  unfold loop_body; cbn [ci labels_count cur_row_name output_col_values]. rewrite Hv, Hne.
  destruct (Z.leb_spec (col_order v + labels) (Z.of_nat (length row)));
    [reflexivity | lia].
Qed.

Lemma pass_data input i labels row v :
  input !! i = Some v ->
  col_order v + labels <= Z.of_nat (length row) ->
  while_loop input (Build_State i labels (Some (row_name v)) row)
  = while_loop input
      (Build_State (S i) labels (Some (row_name v)) (row ++ [Data v])).
Proof.
  intros Hv Hle. rewrite while_loop_unfold.
  rewrite bool_decide_eq_true_2 by (cbn; eapply lookup_lt_Some; eassumption).
  unfold loop_body; cbn [ci labels_count cur_row_name output_col_values]. rewrite Hv, py_ne_same.
  destruct (Z.leb_spec (col_order v + labels) (Z.of_nat (length row)));
    [reflexivity | lia].
Qed.

Lemma pass_exit input i labels cur row :
  (length input <= i)%nat ->
  while_loop input (Build_State i labels cur row)
  = Build_State i labels cur row.
Proof.
  intros Hge. rewrite while_loop_unfold.
  rewrite bool_decide_eq_false_2 by (cbn; lia). reflexivity.
Qed.

(** What one pass does, as a case analysis. *)
Variant pass_spec input st : State -> Prop :=
| PassBlank v :
    input !! ci st = Some v ->
    Z.of_nat (length (output_col_values st)) < col_order v + labels_count st ->
    pass_spec input st
      (Build_State (ci st) (labels_count st) (cur_row_name st)
         (output_col_values st ++ [Blank]))
| PassLabel v :
    input !! ci st = Some v ->
    col_order v + labels_count st <= Z.of_nat (length (output_col_values st)) ->
    py_ne (row_name v) (cur_row_name st) = true ->
    pass_spec input st
      (Build_State (ci st) (labels_count st + 1) (Some (row_name v))
         (output_col_values st ++ [Label (row_name v)]))
| PassData v :
    input !! ci st = Some v ->
    col_order v + labels_count st <= Z.of_nat (length (output_col_values st)) ->
    cur_row_name st = Some (row_name v) ->
    pass_spec input st
      (Build_State (S (ci st)) (labels_count st) (cur_row_name st)
         (output_col_values st ++ [Data v])).

Lemma loop_body_spec input st :
  (ci st < length input)%nat -> pass_spec input st (loop_body input st).
Proof.
  intros Hlt. unfold loop_body.
  destruct (lookup_lt_is_Some_2 _ _ Hlt) as [v Hv]. rewrite Hv.
  destruct (Z.leb_spec (col_order v + labels_count st)
              (Z.of_nat (length (output_col_values st)))) as [Hle | Hgt].
  - destruct (py_ne (row_name v) (cur_row_name st)) eqn:Hne.
    + now apply (PassLabel input st v).
    + apply (PassData input st v); [assumption .. | now apply py_ne_false].
  - now apply (PassBlank input st v).
Qed.

(** The cells already out are never touched again. *)
Lemma while_loop_extends input st :
  exists more,
    output_col_values (while_loop input st) = output_col_values st ++ more.
Proof.
  destruct (while_loop_invariant
              (fun s => exists more,
                   output_col_values s = output_col_values st ++ more) input)
    with (st := st) as [H _]; [| exists []; now rewrite app_nil_r | exact H].
  intros s Hlt [more Hs].
  destruct (loop_body_spec input s Hlt); cbn; rewrite Hs, <- app_assoc; eauto.
Qed.

(** The loop keeps [labels_count] and [cur_row_name] in step with the titles
    it has put out. *)
Definition titles_tracked st : Prop :=
  labels_count st = Z.of_nat (count_labels (output_col_values st))
  /\ cur_row_name st = last_label (output_col_values st).

Lemma titles_tracked_init : titles_tracked init.
Proof. split; reflexivity. Qed.

Lemma titles_tracked_body input st :
  (ci st < length input)%nat ->
  titles_tracked st -> titles_tracked (loop_body input st).
Proof.
  intros Hlt [Hcount Hcur].
  destruct (loop_body_spec input st Hlt); split; cbn;
    unfold count_labels, last_label in *; rewrite label_texts_app; cbn;
    rewrite ?app_nil_r, ?length_app, ?last_snoc; cbn;
    first [assumption | reflexivity | lia].
Qed.

Lemma run_names_cons (x y : string) (rest : list string) :
  run_names (x :: y :: rest)
  = if String.eqb x y then run_names (y :: rest)
    else x :: run_names (y :: rest).
Proof. reflexivity. Qed.

Lemma run_names_nonempty (rest : list string) : forall x,
  run_names (x :: rest) <> [].
Proof.
  induction rest as [|y rest IH]; intros x; [discriminate|].
  rewrite run_names_cons. destruct (String.eqb x y); [apply IH | discriminate].
Qed.

Lemma run_names_last (names : list string) :
  last (run_names names) = last names.
Proof.
  induction names as [|x [|y rest] IH]; [reflexivity .. |].
  rewrite last_cons_cons, <- IH, run_names_cons.
  destruct (String.eqb x y); [reflexivity|].
  pose proof (run_names_nonempty rest y) as Hne.
  destruct (run_names (y :: rest)); [congruence | reflexivity].
Qed.

Lemma run_names_snoc (names : list string) (x : string) :
  run_names (names ++ [x])
  = if py_ne x (last names) then run_names names ++ [x] else run_names names.
Proof.
  induction names as [|a [|b rest] IH]; [reflexivity | |].
  - cbn. rewrite String.eqb_sym.
    destruct (String.eqb_spec x a) as [-> |]; reflexivity.
  - rewrite last_cons_cons.
    change ((a :: b :: rest) ++ [x]) with (a :: b :: (rest ++ [x])).
    rewrite !run_names_cons.
    change (b :: (rest ++ [x])) with ((b :: rest) ++ [x]). rewrite IH.
    destruct (String.eqb a b), (py_ne x (last (b :: rest))); reflexivity.
Qed.

Lemma cols_increasing_from_lookup input : forall lo i a,
  cols_increasing_from lo input = true ->
  input !! i = Some a ->
  lo + Z.of_nat i <= col_order a.
Proof.
  induction input as [|v rest IH]; intros lo i a Hinc Ha; [discriminate|].
  cbn in Hinc. apply andb_true_iff in Hinc as [Hlo Hrest].
  apply Z.leb_le in Hlo.
  destruct i as [|i]; cbn in Ha.
  - injection Ha as <-. lia.
  - specialize (IH _ _ _ Hrest Ha). lia.
Qed.

Lemma cols_increasing_from_step input : forall lo i a b,
  cols_increasing_from lo input = true ->
  input !! i = Some a -> input !! S i = Some b ->
  col_order a < col_order b.
Proof.
  induction input as [|v rest IH]; intros lo i a b Hinc Ha Hb; [discriminate|].
  cbn in Hinc. apply andb_true_iff in Hinc as [Hlo Hrest].
  destruct i as [|i]; cbn in Ha, Hb.
  - injection Ha as <-.
    pose proof (cols_increasing_from_lookup rest _ 0%nat b Hrest Hb). lia.
  - exact (IH _ _ _ _ Hrest Ha Hb).
Qed.

(** *** The two scenarios *)

(** C1, as the claim states it, fails: for the single record "A" at column 3
    the row is not [Label; Blank; Blank; Data]. *)
Lemma lone3_not_label_first :
  assemble Samples.lone3
  <> [Label "A"; Blank; Blank; Data (Samples.entry "A" 3)].
Proof. discriminate. Qed.

(** C1 (amended): a bucket with a single record at column 3 gives the row
    [Blank; Blank; Blank; Label; Data]: three fillers come first, then the
    title, then the material; the row has length 5 and the material sits at
    physical index 4. *)
Theorem single_record_at_col3 (rn cn : string) (m : Material) :
  let r := {| row_name := rn; col_order := 3; col_name := cn; elem := m |} in
  assemble [r] = [Blank; Blank; Blank; Label rn; Data r]
  /\ length (assemble [r]) = 5%nat
  /\ assemble [r] !! 4%nat = Some (Data r).
Proof.
  intros r.
  assert (E : assemble [r] = [Blank; Blank; Blank; Label rn; Data r]).
  { unfold assemble, init.
    do 3 (erewrite pass_blank by (reflexivity || (cbn; lia)); cbn [app]).
    erewrite pass_label by (reflexivity || (cbn; lia)); cbn [app].
    erewrite (pass_data [r] 0 _ _ r) by (reflexivity || (cbn; lia)); cbn [app].
    rewrite pass_exit by (cbn; lia). reflexivity. }
  rewrite E. repeat split.
Qed.

(** C2, as the claim states it, fails: for the records A and B, both at
    column 0, the row is not [Label A; Label B; Data rec1]. *)
Lemma clash_not_dropped :
  assemble Samples.clash
  <> [Label "A"; Label "B"; Data (Samples.entry "B" 0)].
Proof. discriminate. Qed.

(** C2 (amended): two records at column 0, the first titled A and the second
    titled B, give the row [Label A; Data rec0; Label B; Data rec1]: the first
    record is placed right after its title. *)
Theorem two_titles_same_column (cn0 cn1 : string) (m0 m1 : Material) :
  let rec0 := {| row_name := "A"; col_order := 0; col_name := cn0; elem := m0 |} in
  let rec1 := {| row_name := "B"; col_order := 0; col_name := cn1; elem := m1 |} in
  assemble [rec0; rec1] = [Label "A"; Data rec0; Label "B"; Data rec1].
Proof.
  intros rec0 rec1. unfold assemble, init.
  erewrite pass_label by (reflexivity || (cbn; lia)); cbn [app].
  erewrite (pass_data _ 0 _ _ rec0) by (reflexivity || (cbn; lia)); cbn [app].
  erewrite pass_label by (reflexivity || (cbn; lia)); cbn [app].
  erewrite (pass_data _ 1 _ _ rec1) by (reflexivity || (cbn; lia)); cbn [app].
  rewrite pass_exit by (cbn; lia). reflexivity.
Qed.

(** *** Materials are kept, in order *)

(** C3: the row of a bucket has as many [Data] cells as the bucket has
    records, and the records they wrap, left to right, are the bucket. *)
Theorem data_cells_are_the_bucket input :
  count_data (assemble input) = length input
  /\ data_records (assemble input) = input.
Proof.
  assert (E : data_records (assemble input) = input).
  { destruct (while_loop_invariant
                (fun s => data_records (output_col_values s) = take (ci s) input)
                input) with (st := init) as [Hinv Hexit].
    - intros st Hlt Hst. unfold loop_body.
      destruct (lookup_lt_is_Some_2 _ _ Hlt) as [v Hv]. rewrite Hv.
      repeat case_match; cbn; rewrite data_records_app, Hst; cbn.
      + apply app_nil_r.
      + symmetry. now apply take_S_r.
      + apply app_nil_r.
    - reflexivity.
    - unfold assemble. rewrite Hinv. now apply take_ge. }
  unfold count_data. rewrite E. split; reflexivity.
Qed.

(** *** Titles *)

Definition titles_follow_runs input st : Prop :=
  titles_tracked st
  /\ (label_texts (output_col_values st)
      = run_names (map row_name (take (ci st) input))
      \/ (is_Some (input !! ci st)
          /\ label_texts (output_col_values st)
             = run_names (map row_name (take (S (ci st)) input)))).

Lemma titles_follow_runs_body input st :
  (ci st < length input)%nat ->
  titles_follow_runs input st -> titles_follow_runs input (loop_body input st).
Proof.
  intros Hlt [Htr Hruns].
  split; [now apply titles_tracked_body|].
  destruct Htr as [_ Hcur]. unfold last_label in Hcur.
  destruct (loop_body_spec input st Hlt) as [v Hv Hgt | v Hv Hle Hne | v Hv Hle Hsame];
    cbn; rewrite ?label_texts_app; cbn; rewrite ?app_nil_r.
  - exact Hruns.
  - right. split; [eauto|].
    rewrite (take_S_r _ _ _ Hv), map_app; cbn [map]; rewrite run_names_snoc.
    destruct Hruns as [Hr | [_ Hr]].
    + rewrite Hr, run_names_last in Hcur. rewrite <- Hcur, Hne, Hr. reflexivity.
    + rewrite Hr, run_names_last, (take_S_r _ _ _ Hv), map_app in Hcur.
      cbn [map] in Hcur. rewrite last_snoc in Hcur.
      rewrite Hcur, py_ne_same in Hne. discriminate.
  - left. destruct Hruns as [Hr | [_ Hr]]; [|exact Hr].
    rewrite (take_S_r _ _ _ Hv), map_app; cbn [map]; rewrite run_names_snoc.
    rewrite Hr, run_names_last in Hcur.
    rewrite <- Hcur, Hsame, py_ne_same. exact Hr.
Qed.

(** C4: the row of a bucket has as many [Label] cells as the bucket's record
    sequence has maximal runs of consecutive equal row names; the titles, left
    to right, are the names of those runs. *)
Theorem one_label_per_run input :
  count_labels (assemble input) = count_runs (map row_name input)
  /\ label_texts (assemble input) = run_names (map row_name input).
Proof.
  assert (E : label_texts (assemble input) = run_names (map row_name input)).
  { destruct (while_loop_invariant (titles_follow_runs input) input)
      with (st := init) as [[_ Hruns] Hexit].
    - apply titles_follow_runs_body.
    - split; [apply titles_tracked_init | left; reflexivity].
    - unfold assemble. destruct Hruns as [Hr | [Hsome _]].
      + rewrite Hr, take_ge by assumption. reflexivity.
      + apply lookup_lt_is_Some_1 in Hsome. lia. }
  unfold count_labels, count_runs. rewrite E. split; reflexivity.
Qed.

(** *** Physical positions *)

Definition data_at_or_after_target st : Prop :=
  titles_tracked st
  /\ forall (i : nat) r,
       output_col_values st !! i = Some (Data r) ->
       col_order r + Z.of_nat (count_labels (take i (output_col_values st)))
       <= Z.of_nat i.

Lemma data_at_or_after_target_body input st :
  (ci st < length input)%nat ->
  data_at_or_after_target st -> data_at_or_after_target (loop_body input st).
Proof.
  intros Hlt [Htr Hpos].
  split; [now apply titles_tracked_body|].
  destruct Htr as [Hcount _].
  intros i r Hi.
  destruct (loop_body_spec input st Hlt) as [v Hv Hgt | v Hv Hle Hne | v Hv Hle Hsame];
    cbn in Hi |- *;
    apply lookup_snoc_Some in Hi as [[Hin Hi] | [-> Hi]]; try discriminate;
    try (rewrite take_app_le by lia; now apply Hpos).
  injection Hi as <-. rewrite take_app_length. lia.
Qed.

Definition data_at_target input st : Prop :=
  titles_tracked st
  /\ (forall v, input !! ci st = Some v ->
        Z.of_nat (length (output_col_values st))
        <= col_order v + labels_count st)
  /\ forall (i : nat) r,
       output_col_values st !! i = Some (Data r) ->
       Z.of_nat i
       = col_order r + Z.of_nat (count_labels (take i (output_col_values st))).

Lemma data_at_target_body input st :
  cols_strictly_increasing input = true ->
  (ci st < length input)%nat ->
  data_at_target input st -> data_at_target input (loop_body input st).
Proof.
  intros Hinc Hlt (Htr & Hroom & Hpos).
  split; [now apply titles_tracked_body|].
  destruct Htr as [Hcount _].
  destruct (loop_body_spec input st Hlt) as [v Hv Hgt | v Hv Hle Hne | v Hv Hle Hsame];
    cbn; (split; [intros w Hw; rewrite length_app; cbn | intros i r Hi;
      apply lookup_snoc_Some in Hi as [[Hin Hi] | [-> Hi]]; try discriminate;
      try (rewrite take_app_le by lia; now apply Hpos)]).
  - rewrite Hv in Hw. injection Hw as <-. lia.
  - rewrite Hv in Hw. injection Hw as <-. specialize (Hroom _ Hv). lia.
  - pose proof (cols_increasing_from_step _ _ _ _ _ Hinc Hv Hw).
    specialize (Hroom _ Hv). lia.
  - injection Hi as <-. rewrite take_app_length. specialize (Hroom _ Hv). lia.
Qed.

(** C5, as the claim states it, fails: in the row of the two records A and B
    at column 0, the second material sits at physical index 3, after two
    titles, while its column order plus the titles before it is 2. *)
Lemma clash_data_past_target :
  assemble Samples.clash !! 3%nat = Some (Data (Samples.entry "B" 0))
  /\ Z.of_nat 3
     <> col_order (Samples.entry "B" 0)
        + Z.of_nat (count_labels (take 3 (assemble Samples.clash))).
Proof. split; [reflexivity | discriminate]. Qed.

(** C5 (amended): the physical index of a record's [Data] cell is at least the
    record's column order plus the number of [Label] cells before it in the
    row; the two are equal when the column orders of the bucket start at 0 or
    later and strictly increase. *)
Theorem data_cell_position input (i : nat) r :
  assemble input !! i = Some (Data r) ->
  col_order r + Z.of_nat (count_labels (take i (assemble input))) <= Z.of_nat i
  /\ (cols_strictly_increasing input = true ->
      Z.of_nat i
      = col_order r + Z.of_nat (count_labels (take i (assemble input)))).
Proof.
  intros Hi. split.
  - destruct (while_loop_invariant data_at_or_after_target input)
      with (st := init) as [[_ Hpos] _].
    + apply data_at_or_after_target_body.
    + split; [apply titles_tracked_init | intros ? ? ?; discriminate].
    + now apply Hpos.
  - intros Hinc.
    destruct (while_loop_invariant (data_at_target input) input)
      with (st := init) as [(_ & _ & Hpos) _].
    + intros st. now apply data_at_target_body.
    + split; [apply titles_tracked_init|]. split; [|intros ? ? ?; discriminate].
      intros v Hv. cbn in Hv |- *.
      pose proof (cols_increasing_from_lookup _ _ _ _ Hinc Hv). lia.
    + now apply Hpos.
Qed.

Lemma data_cell_position_witness :
  col_order (Samples.entry "A" 1)
    + Z.of_nat (count_labels (take 2 (assemble Samples.pair))) <= Z.of_nat 2
  /\ (cols_strictly_increasing Samples.pair = true ->
      Z.of_nat 2
      = col_order (Samples.entry "A" 1)
        + Z.of_nat (count_labels (take 2 (assemble Samples.pair)))).
Proof.
  apply (data_cell_position Samples.pair 2 (Samples.entry "A" 1)). reflexivity.
Defined.

(** *** Titles come before their materials *)

Definition data_under_title st : Prop :=
  titles_tracked st
  /\ forall (i : nat) r,
       output_col_values st !! i = Some (Data r) ->
       last_label (take i (output_col_values st)) = Some (row_name r).

Lemma data_under_title_body input st :
  (ci st < length input)%nat ->
  data_under_title st -> data_under_title (loop_body input st).
Proof.
  intros Hlt [Htr Hpos].
  split; [now apply titles_tracked_body|].
  destruct Htr as [_ Hcur].
  intros i r Hi.
  destruct (loop_body_spec input st Hlt) as [v Hv Hgt | v Hv Hle Hne | v Hv Hle Hsame];
    cbn in Hi |- *;
    apply lookup_snoc_Some in Hi as [[Hin Hi] | [-> Hi]]; try discriminate;
    try (rewrite take_app_le by lia; now apply Hpos).
  injection Hi as <-. rewrite take_app_length. congruence.
Qed.

(** C10: the row of a non-empty bucket never starts with a [Data] cell: it
    starts with the first record's title when that record's column order is at
    most 0, and with a filler otherwise; and before every [Data] cell there is
    a [Label] cell, the nearest of which carries the record's row name. *)
Theorem row_starts_before_data v rest :
  head (assemble (v :: rest))
  = Some (if col_order v <=? 0 then Label (row_name v) else Blank)
  /\ forall (i : nat) r,
       assemble (v :: rest) !! i = Some (Data r) ->
       last_label (take i (assemble (v :: rest))) = Some (row_name r).
Proof.
  split.
  - unfold assemble. rewrite while_loop_unfold.
    rewrite bool_decide_eq_true_2 by (cbn; lia).
    destruct (while_loop_extends (v :: rest) (loop_body (v :: rest) init))
      as [more ->].
    unfold loop_body; cbn. rewrite Z.add_0_r.
    change (Z.of_nat 0) with 0.
    destruct (col_order v <=? 0); reflexivity.
  - destruct (while_loop_invariant data_under_title (v :: rest))
      with (st := init) as [[_ Hpos] _].
    + apply data_under_title_body.
    + split; [apply titles_tracked_init | intros ? ? ?; discriminate].
    + exact Hpos.
Qed.

Lemma row_starts_before_data_witness :
  last_label (take 4 (assemble Samples.lone3)) = Some "A".
Proof.
  apply (proj2 (row_starts_before_data (Samples.entry "A" 3) []) 4%nat
           (Samples.entry "A" 3)).
  reflexivity.
Defined.

(** *** Termination *)

(** C6: every pass of the loop advances the record cursor or makes the output
    longer, and for every bucket the loop stops: after some number [n] of
    passes, each begun with records left, every record has been consumed. *)
Theorem assembly_terminates input :
  (forall st, (ci st < length input)%nat ->
     ci (loop_body input st) = S (ci st)
     \/ (length (output_col_values st)
         < length (output_col_values (loop_body input st)))%nat)
  /\ exists n : nat,
       while_loop input init = Nat.iter n (loop_body input) init
       /\ ci (Nat.iter n (loop_body input) init) = length input
       /\ forall k, (k < n)%nat ->
            (ci (Nat.iter k (loop_body input) init) < length input)%nat.
Proof.
  split.
  - intros st Hlt. right. rewrite (loop_body_length input st Hlt). lia.
  - exists (variant input init). split; [apply while_loop_iter|]. split.
    + rewrite <- while_loop_iter. apply while_loop_ci. cbn. lia.
    + intros k Hk. apply variant_pos. rewrite variant_iter; lia.
Qed.

Lemma assembly_terminates_witness :
  ci (loop_body Samples.lone3 init) = 1%nat
  \/ (length (output_col_values init)
      < length (output_col_values (loop_body Samples.lone3 init)))%nat.
Proof.
  apply (proj1 (assembly_terminates Samples.lone3) init). cbn. lia.
Defined.

(** *** The shape of a row *)

(** A title at the end of the output is the title of the record under the
    cursor, which has room to be placed; a title further left is followed by
    the material of a record of that name. *)
Definition labels_lead_data input st : Prop :=
  (forall (i : nat) t,
      output_col_values st !! i = Some (Label t) ->
      (S i < length (output_col_values st))%nat ->
      exists r, output_col_values st !! S i = Some (Data r) /\ row_name r = t)
  /\ (forall t,
        last (output_col_values st) = Some (Label t) ->
        exists v, input !! ci st = Some v /\ row_name v = t
                  /\ cur_row_name st = Some t
                  /\ col_order v + labels_count st
                     <= Z.of_nat (length (output_col_values st))).

Lemma lookup_last_cell row (i : nat) c :
  row !! i = Some c -> S i = length row -> last row = Some c.
Proof.
  intros Hi Hlen. rewrite last_lookup. now replace (pred (length row)) with i by lia.
Qed.

Lemma labels_lead_data_body input st :
  (ci st < length input)%nat ->
  labels_lead_data input st -> labels_lead_data input (loop_body input st).
Proof.
  intros Hlt [Hinner Hlast].
  destruct (loop_body_spec input st Hlt)
    as [v Hv Hgt | v Hv Hle Hne | v Hv Hle Hsame];
    unfold labels_lead_data; cbn; split.
  - intros i t Hi Hlen. rewrite length_app in Hlen. cbn in Hlen.
    apply lookup_snoc_Some in Hi as [[Hin Hi] | [_ Hi]]; [|discriminate].
    destruct (decide (S i = length (output_col_values st))) as [Heq | Hneq].
    + destruct (Hlast t (lookup_last_cell _ _ _ Hi Heq)) as (v' & Hv' & _ & _ & Hroom).
      rewrite Hv in Hv'. injection Hv' as <-. lia.
    + destruct (Hinner i t Hi) as (r & Hr & Hname); [lia|].
      exists r. split; [|assumption].
      rewrite lookup_app_l by lia. assumption.
  - intros t Ht. rewrite last_snoc in Ht. discriminate.
  - intros i t Hi Hlen. rewrite length_app in Hlen. cbn in Hlen.
    apply lookup_snoc_Some in Hi as [[Hin Hi] | [-> Hi]]; [|lia].
    destruct (decide (S i = length (output_col_values st))) as [Heq | Hneq].
    + destruct (Hlast t (lookup_last_cell _ _ _ Hi Heq)) as (v' & Hv' & Hname & Hcur & _).
      rewrite Hv in Hv'. injection Hv' as <-.
      rewrite Hcur, <- Hname, py_ne_same in Hne. discriminate.
    + destruct (Hinner i t Hi) as (r & Hr & Hname); [lia|].
      exists r. split; [|assumption].
      rewrite lookup_app_l by lia. assumption.
  - intros t Ht. rewrite last_snoc in Ht. injection Ht as <-.
    exists v. rewrite length_app. cbn. repeat split; [assumption | lia].
  - intros i t Hi Hlen. rewrite length_app in Hlen. cbn in Hlen.
    apply lookup_snoc_Some in Hi as [[Hin Hi] | [_ Hi]]; [|discriminate].
    destruct (decide (S i = length (output_col_values st))) as [Heq | Hneq].
    + destruct (Hlast t (lookup_last_cell _ _ _ Hi Heq)) as (v' & Hv' & Hname & _ & _).
      rewrite Hv in Hv'. injection Hv' as <-.
      exists v. split; [|assumption].
      rewrite Heq. apply list_lookup_middle. reflexivity.
    + destruct (Hinner i t Hi) as (r & Hr & Hname); [lia|].
      exists r. split; [|assumption].
      rewrite lookup_app_l by lia. assumption.
  - intros t Ht. rewrite last_snoc in Ht. discriminate.
Qed.

(** X1: in the row of any bucket every [Label] cell is directly followed by
    a [Data] cell, and the record of that cell has the title as its row
    name. *)
Theorem label_then_data input (i : nat) t :
  assemble input !! i = Some (Label t) ->
  exists r, assemble input !! S i = Some (Data r) /\ row_name r = t.
Proof.
  intros Hi.
  destruct (while_loop_invariant (labels_lead_data input) input)
    with (st := init) as [[Hinner Hlast] Hexit].
  - apply labels_lead_data_body.
  - split; [intros ? ? ?; discriminate | intros ? ?; discriminate].
  - fold (assemble input) in Hinner, Hlast.
    pose proof (lookup_lt_Some _ _ _ Hi) as Hlen.
    destruct (decide (S i = length (assemble input))) as [Heq | Hneq].
    + destruct (Hlast t (lookup_last_cell _ _ _ Hi Heq)) as (v & Hv & _).
      apply lookup_lt_Some in Hv. lia.
    + apply Hinner; [assumption | lia].
Qed.

Lemma label_then_data_witness :
  exists r, assemble Samples.clash !! 3%nat = Some (Data r) /\ row_name r = "B".
Proof.
  apply (label_then_data Samples.clash 2 "B"). reflexivity.
Defined.

Lemma while_loop_last input :
  last (output_col_values (while_loop input init)) = Data <$> last input.
Proof.
  destruct (while_loop_invariant
              (fun s => ci s = length input ->
                        last (output_col_values s) = Data <$> last input)
              input) with (st := init) as [Hinv Hexit].
  - intros st Hlt _.
    destruct (loop_body_spec input st Hlt)
      as [v Hv Hgt | v Hv Hle Hne | v Hv Hle Hsame]; cbn; intros Hci; [lia .. |].
    rewrite last_snoc, last_lookup, <- Hci. cbn. now rewrite Hv.
  - cbn. intros Hlen. symmetry in Hlen. apply length_zero_iff_nil in Hlen.
    now subst input.
  - apply Hinv. apply while_loop_ci. cbn. lia.
Qed.

(** X2: the row of a bucket ends with the [Data] cell of the bucket's last
    record; it never ends with a filler or a title, and the row of the empty
    bucket is empty. *)
Theorem row_ends_with_last_record input :
  last (assemble input) = Data <$> last input.
Proof. apply while_loop_last. Qed.

Lemma count_labels_app row1 row2 :
  count_labels (row1 ++ row2) = (count_labels row1 + count_labels row2)%nat.
Proof. unfold count_labels. now rewrite label_texts_app, length_app. Qed.

(** X3: when the column orders of a bucket start at 0 or later and strictly
    increase, the row is as wide as the column order of the last record plus
    the number of runs of equal row names plus one. *)
Theorem row_width input r :
  cols_strictly_increasing input = true ->
  last input = Some r ->
  Z.of_nat (length (assemble input))
  = col_order r + Z.of_nat (count_runs (map row_name input)) + 1.
Proof.
  intros Hinc Hr.
  pose proof (while_loop_last input) as Hlast. rewrite Hr in Hlast. cbn in Hlast.
  apply last_Some in Hlast as [row Hrow].
  destruct (while_loop_invariant (data_at_target input) input)
    with (st := init) as [(_ & _ & Hpos) _].
  { intros st. now apply data_at_target_body. }
  { split; [apply titles_tracked_init|]. split; [|intros ? ? ?; discriminate].
    intros v Hv. cbn in Hv |- *.
    pose proof (cols_increasing_from_lookup _ _ _ _ Hinc Hv). lia. }
  destruct (while_loop_invariant (titles_follow_runs input) input)
    with (st := init) as [[_ Hruns] Hexit].
  { apply titles_follow_runs_body. }
  { split; [apply titles_tracked_init | left; reflexivity]. }
  assert (Htexts : label_texts (output_col_values (while_loop input init))
                   = run_names (map row_name input)).
  { destruct Hruns as [Hx | [Hsome _]].
    - rewrite Hx, take_ge by assumption. reflexivity.
    - apply lookup_lt_is_Some_1 in Hsome. lia. }
  specialize (Hpos (length row) r).
  unfold assemble. unfold count_runs. rewrite <- Htexts.
  rewrite Hrow in Hpos |- *.
  rewrite take_app_length in Hpos.
  rewrite label_texts_app, !length_app. cbn.
  rewrite Nat.add_0_r.
  unfold count_labels in Hpos.
  rewrite Nat2Z.inj_add, Hpos; [lia|].
  apply list_lookup_middle. reflexivity.
Qed.

Lemma row_width_witness :
  Z.of_nat (length (assemble Samples.pair))
  = col_order (Samples.entry "A" 1)
    + Z.of_nat (count_runs (map row_name Samples.pair)) + 1.
Proof.
  apply (row_width Samples.pair (Samples.entry "A" 1)); reflexivity.
Defined.

Lemma loop_body_app input more st :
  (ci st < length input)%nat ->
  loop_body (input ++ more) st = loop_body input st.
Proof.
  intros Hlt. unfold loop_body. now rewrite lookup_app_l.
Qed.

Lemma while_loop_app input more : forall st,
  while_loop (input ++ more) st
  = while_loop (input ++ more) (while_loop input st).
Proof.
  intros st. remember (variant input st) as n eqn:Hn.
  revert st Hn. induction n as [n IH] using lt_wf_ind. intros st Hn.
  rewrite (while_loop_unfold input st). case_bool_decide as Hlt; [|reflexivity].
  rewrite (while_loop_unfold (input ++ more) st).
  rewrite bool_decide_eq_true_2 by (rewrite length_app; lia).
  rewrite loop_body_app by assumption.
  apply (IH (variant input (loop_body input st))); [|reflexivity].
  rewrite Hn, <- (loop_body_variant input st Hlt). lia.
Qed.

(** X4: records appended to a bucket only extend its row: the row of a
    bucket is a prefix of the row of the bucket with more records after it. *)
Theorem assemble_app_prefix input more :
  assemble input `prefix_of` assemble (input ++ more).
Proof.
  unfold assemble. rewrite while_loop_app.
  apply while_loop_extends.
Qed.

End AssemblerFacts.

(** ** Properties of the source loader *)

Section LoaderFacts.

Import Loader.

Lemma append_cons (c : ascii) (s t : string) :
  String c s +:+ t = String c (s +:+ t).
Proof. reflexivity. Qed.

Lemma append_empty_r (s : string) : s +:+ EmptyString = s.
Proof.
  induction s as [|c s IH]; [reflexivity | now rewrite append_cons, IH].
Qed.

Lemma append_assoc (s1 s2 s3 : string) :
  (s1 +:+ s2) +:+ s3 = s1 +:+ (s2 +:+ s3).
Proof.
  induction s1 as [|c s1 IH]; [reflexivity | now rewrite !append_cons, IH].
Qed.

Lemma skip_dots_at_end (s : string) :
  single_line s = true -> at_end (skip_dots s) = true.
Proof.
  induction s as [|c s IH]; [reflexivity|]. cbn.
  destruct (Ascii.eqb c newline) eqn:Hc.
  - destruct s; [intros _; cbn; now rewrite Hc | discriminate].
  - exact IH.
Qed.

Lemma marker_at_line_end_step (c c' : ascii) (line : string) :
  Ascii.eqb c newline = false ->
  Ascii.eqb c slash && Ascii.eqb c' slash = false ->
  marker_at_line_end (String c (String c' line))
  = marker_at_line_end (String c' line).
Proof. intros Hc Hmark. cbn. now rewrite Hc, Hmark. Qed.

Lemma strip_from_first_marker_step (c c' : ascii) (line : string) :
  Ascii.eqb c newline = false ->
  Ascii.eqb c slash && Ascii.eqb c' slash = false ->
  strip_from_first_marker (String c (String c' line))
  = String c (strip_from_first_marker (String c' line)).
Proof. intros Hc Hmark. cbn. now rewrite Hc, Hmark. Qed.

Lemma match_line_spec (line : string) :
  single_line line = true ->
  exists group1 rest,
    match_line line = Some (group1, rest)
    /\ group1 +:+ rest
       = if marker_at_line_end line then line
         else strip_from_first_marker line.
Proof.
  induction line as [|c line IH]; [intros _; exists EmptyString, EmptyString; now split|].
  intros Hline. cbn [single_line] in Hline.
  destruct (Ascii.eqb_spec c newline) as [-> | Hc].
  { destruct line; [|discriminate].
    exists EmptyString, (String newline EmptyString). now split. }
  destruct (IH Hline) as (g1 & rest & Hm & Hg). clear IH.
  apply Ascii.eqb_neq in Hc.
  destruct line as [|c' line].
  { exists (String c EmptyString), EmptyString.
    cbn. rewrite Hc. now split. }
  destruct (Ascii.eqb c slash && Ascii.eqb c' slash) eqn:Hmark.
  - apply andb_true_iff in Hmark as [H1 H2].
    apply Ascii.eqb_eq in H1, H2. subst c c'.
    destruct line as [|c3 line].
    { exists (String slash (String slash EmptyString)), EmptyString. now split. }
    destruct (Ascii.eqb c3 newline) eqn:Hc3.
    + apply Ascii.eqb_eq in Hc3. subst c3.
      destruct line; [|discriminate].
      exists (String slash (String slash EmptyString)), (String newline EmptyString).
      now split.
    + exists EmptyString, (skip_dots line).
      assert (Hend : at_end (skip_dots line) = true).
      { apply skip_dots_at_end. cbn in Hline. now rewrite Hc3 in Hline. }
      split.
      * cbn. rewrite Hc3. cbn. now rewrite Hend.
      * cbn. rewrite Hc3. destruct line; reflexivity.
  - exists (String c g1), rest. split.
    + change (match_line (String c (String c' line)))
        with (match match_comment (String c (String c' line)) with
              | Some rest => Some (EmptyString, rest)
              | None =>
                  if at_end (String c (String c' line)) then
                    Some (EmptyString, String c (String c' line))
                  else if Ascii.eqb c newline then None
                  else match match_line (String c' line) with
                       | Some (group1, rest) => Some (String c group1, rest)
                       | None => None
                       end
              end).
      rewrite Hm, Hc.
      assert (Hnone : match_comment (String c (String c' line)) = None).
      { cbn. destruct line; [reflexivity|]. now rewrite Hmark. }
      rewrite Hnone. reflexivity.
    + change (String c g1 +:+ rest) with (String c (g1 +:+ rest)). rewrite Hg.
      rewrite marker_at_line_end_step, strip_from_first_marker_step
        by assumption.
      destruct (marker_at_line_end (String c' line)); reflexivity.
Qed.

(** X5: on a line of the file the substitution removes the comment that
    starts at the first marker and keeps the line end, unless the marker is
    the last thing on the line: then the line stays as it is. *)
Lemma comment_sub_spec (line : string) :
  single_line line = true ->
  comment_sub line
  = if marker_at_line_end line then line else strip_from_first_marker line.
Proof.
  intros Hline. unfold comment_sub.
  destruct (match_line_spec line Hline) as (g1 & rest & -> & Hg). exact Hg.
Qed.

(** C7 fails on the code: on the line [[ //], where nothing follows the
    marker, the substitution keeps the marker, while removing everything from
    the first marker on would leave [[ ] and the line end. *)
Theorem bare_marker_is_kept :
  single_line Samples.bare_marker_line = true
  /\ comment_sub Samples.bare_marker_line = Samples.bare_marker_line
  /\ strip_from_first_marker Samples.bare_marker_line
     = String "[" (String " " (String newline EmptyString))
  /\ strip_comments [Samples.bare_marker_line] = Samples.bare_marker_line.
Proof. repeat split. Qed.

Lemma comment_sub_spec_witness :
  comment_sub Samples.commented_line
  = if marker_at_line_end Samples.commented_line then Samples.commented_line
    else strip_from_first_marker Samples.commented_line.
Proof. apply (comment_sub_spec Samples.commented_line). reflexivity. Defined.

Lemma prefix_marker_cons (c c' : ascii) (s : string) :
  String.prefix "//" (String c (String c' s))
  = Ascii.eqb c slash && Ascii.eqb c' slash.
Proof.
  change (String.prefix "//" (String c (String c' s)))
    with (if ascii_dec "/" c
          then if ascii_dec "/" c' then String.prefix EmptyString s else false
          else false).
  destruct (ascii_dec "/" c) as [<- | Hc].
  - destruct (ascii_dec "/" c') as [<- | Hc'].
    + destruct s; reflexivity.
    + symmetry. apply andb_false_iff. right. apply Ascii.eqb_neq.
      unfold slash. congruence.
  - symmetry. apply andb_false_iff. left. apply Ascii.eqb_neq.
    unfold slash. congruence.
Qed.

Lemma prefix_marker_short (c : ascii) :
  String.prefix "//" (String c EmptyString) = false.
Proof.
  change (String.prefix "//" (String c EmptyString))
    with (if ascii_dec "/" c then false else false).
  destruct (ascii_dec "/" c); reflexivity.
Qed.

Lemma contains_marker_cons (c : ascii) (s : string) :
  Renderer.contains "//" (String c s)
  = String.prefix "//" (String c s) || Renderer.contains "//" s.
Proof. reflexivity. Qed.

Lemma match_comment_marker (s rest : string) :
  match_comment s = Some rest -> String.prefix "//" s = true.
Proof.
  destruct s as [|c1 [|c2 [|c3 s]]]; try discriminate.
  rewrite prefix_marker_cons. cbn.
  destruct (Ascii.eqb c1 slash && Ascii.eqb c2 slash); [reflexivity|].
  discriminate.
Qed.

Lemma match_line_no_marker (line : string) :
  Renderer.contains "//" line = false ->
  match match_line line with
  | Some (group1, rest) => group1 +:+ rest = line
  | None => True
  end.
Proof.
  induction line as [|c line IH]; [reflexivity|].
  rewrite contains_marker_cons. intros Hno.
  apply orb_false_iff in Hno as [Hhere Hlater]. specialize (IH Hlater).
  change (match_line (String c line))
    with (match match_comment (String c line) with
          | Some rest => Some (EmptyString, rest)
          | None =>
              if at_end (String c line) then Some (EmptyString, String c line)
              else if Ascii.eqb c newline then None
              else match match_line line with
                   | Some (group1, rest) => Some (String c group1, rest)
                   | None => None
                   end
          end).
  destruct (match_comment (String c line)) as [rest|] eqn:Hgroup.
  { apply match_comment_marker in Hgroup. congruence. }
  destruct (at_end (String c line)); [reflexivity|].
  destruct (Ascii.eqb c newline); [exact I|].
  destruct (match_line line) as [[g1 rest]|]; [|exact I].
  change (String c g1 +:+ rest) with (String c (g1 +:+ rest)). now rewrite IH.
Qed.

(** X6: a line without the marker [//], whatever else it holds, comes out of
    the substitution as it went in. *)
Theorem comment_sub_no_marker (line : string) :
  Renderer.contains "//" line = false -> comment_sub line = line.
Proof.
  intros Hno. unfold comment_sub.
  pose proof (match_line_no_marker line Hno) as H.
  destruct (match_line line) as [[g1 rest]|]; [exact H | reflexivity].
Qed.

Lemma comment_sub_no_marker_witness :
  comment_sub "  [1, 2, 3]," = "  [1, 2, 3],".
Proof. apply (comment_sub_no_marker "  [1, 2, 3],"). reflexivity. Defined.

Lemma skip_dots_line_end (s : string) :
  single_line s = true ->
  skip_dots s = EmptyString \/ skip_dots s = String newline EmptyString.
Proof.
  induction s as [|c s IH]; [now left|]. cbn.
  destruct (Ascii.eqb_spec c newline) as [-> | Hc].
  - destruct s; [now right | discriminate].
  - exact IH.
Qed.

Lemma strip_from_first_marker_head (c : ascii) (line : string) :
  Ascii.eqb c slash = false ->
  exists tail, strip_from_first_marker (String c line) = String c tail.
Proof.
  intros Hc. cbn. destruct (Ascii.eqb c newline); [eauto|].
  destruct line as [|c' line]; [eauto|]. rewrite Hc. cbn. eauto.
Qed.

Lemma strip_from_first_marker_clean (line : string) :
  single_line line = true ->
  Renderer.contains "//" (strip_from_first_marker line) = false.
Proof.
  induction line as [|c line IH]; [reflexivity|].
  intros Hline. cbn [single_line] in Hline.
  destruct (Ascii.eqb c newline) eqn:Hc.
  { destruct line; [|discriminate]. cbn. rewrite Hc.
    rewrite contains_marker_cons, prefix_marker_short. reflexivity. }
  specialize (IH Hline).
  destruct line as [|c' line].
  { cbn. rewrite Hc. rewrite contains_marker_cons, prefix_marker_short.
    reflexivity. }
  destruct (Ascii.eqb c slash && Ascii.eqb c' slash) eqn:Hmark.
  - assert (E : strip_from_first_marker (String c (String c' line))
                = skip_dots (String c' line)).
    { cbn. now rewrite Hc, Hmark. }
    rewrite E.
    destruct (skip_dots_line_end _ Hline) as [-> | ->]; reflexivity.
  - rewrite strip_from_first_marker_step by assumption.
    rewrite contains_marker_cons, IH, orb_false_r.
    apply andb_false_iff in Hmark as [Hslash | Hslash'].
    + destruct (strip_from_first_marker (String c' line)) as [|a tail].
      * apply prefix_marker_short.
      * rewrite prefix_marker_cons, Hslash. reflexivity.
    + destruct (strip_from_first_marker_head c' line Hslash') as [tail ->].
      rewrite prefix_marker_cons, Hslash'. apply andb_false_r.
Qed.

(** X7: on a line of the file whose first marker is followed by at least one
    character, nothing of a marker is left after the substitution. *)
Theorem comment_sub_clean (line : string) :
  single_line line = true ->
  marker_at_line_end line = false ->
  Renderer.contains "//" (comment_sub line) = false.
Proof.
  intros Hline Hend. unfold comment_sub.
  destruct (match_line_spec line Hline) as (g1 & rest & -> & Hg).
  rewrite Hg, Hend. now apply strip_from_first_marker_clean.
Qed.

Lemma comment_sub_clean_witness :
  Renderer.contains "//" (comment_sub Samples.commented_line) = false.
Proof. apply (comment_sub_clean Samples.commented_line); reflexivity. Defined.

(** *** The whole document *)









End LoaderFacts.

(** ** Properties of the two sorts *)

Section SortFacts.

Import Grouper.

Lemma insert_by_col_perm (x : Entry) (sorted : list Entry) :
  insert_by_col x sorted ≡ₚ x :: sorted.
Proof.
  induction sorted as [|y sorted IH]; cbn; [reflexivity|].
  destruct (col_order x <=? col_order y); [reflexivity|].
  rewrite IH. apply perm_swap.
Qed.

Lemma sorted_by_col_perm (v : list Entry) : sorted_by_col v ≡ₚ v.
Proof.
  induction v as [|x v IH]; cbn; [reflexivity|].
  rewrite insert_by_col_perm. now constructor.
Qed.

Lemma insert_by_col_sorted (x : Entry) (sorted : list Entry) :
  cols_sorted sorted -> cols_sorted (insert_by_col x sorted).
Proof.
  unfold cols_sorted.
  induction sorted as [|y sorted IH]; cbn; intros Hs.
  - repeat constructor.
  - apply StronglySorted_inv in Hs as [Hs Hy].
    destruct (Z.leb_spec (col_order x) (col_order y)) as [Hle | Hgt].
    + constructor; [now constructor|].
      constructor; [assumption|].
      eapply Forall_impl; [exact Hy|]. cbn. intros z Hz. lia.
    + constructor; [now apply IH|].
      rewrite insert_by_col_perm. constructor; [lia | assumption].
Qed.

Lemma sorted_by_col_sorted (v : list Entry) : cols_sorted (sorted_by_col v).
Proof.
  induction v as [|x v IH]; cbn; [constructor|].
  now apply insert_by_col_sorted.
Qed.

Lemma filter_insert_by_col (c : Z) (x : Entry) (sorted : list Entry) :
  filter (fun e => col_order e = c) (insert_by_col x sorted)
  = filter (fun e => col_order e = c) (x :: sorted).
Proof.
  induction sorted as [|y sorted IH]; cbn [insert_by_col]; [reflexivity|].
  destruct (Z.leb_spec (col_order x) (col_order y)) as [Hle | Hgt];
    [reflexivity|].
  rewrite (filter_cons _ y), IH, !filter_cons.
  repeat case_decide; try reflexivity. lia.
Qed.

(** X11: the sort of a bucket is a stable sort by column order: its result
    has the entries of the bucket, in non-decreasing column order, and the
    entries of one column order keep the order they had in the bucket. *)
Theorem sorted_by_col_stable (v : list Entry) :
  sorted_by_col v ≡ₚ v
  /\ cols_sorted (sorted_by_col v)
  /\ forall c : Z,
       filter (fun e => col_order e = c) (sorted_by_col v)
       = filter (fun e => col_order e = c) v.
Proof.
  split; [apply sorted_by_col_perm|]. split; [apply sorted_by_col_sorted|].
  intros c. induction v as [|x v IH]; [reflexivity|].
  cbn [sorted_by_col foldr]. rewrite filter_insert_by_col, !filter_cons.
  fold (sorted_by_col v). now rewrite IH.
Qed.

Lemma elem_of_insert_key (x k : Z) (sorted : list Z) :
  x ∈ insert_key k sorted <-> x = k \/ x ∈ sorted.
Proof.
  induction sorted as [|k' sorted IH]; cbn.
  - rewrite list_elem_of_singleton, elem_of_nil. tauto.
  - destruct (k <=? k'); [apply elem_of_cons|].
    rewrite !elem_of_cons, IH. tauto.
Qed.

Lemma insert_key_sorted (k : Z) (sorted : list Z) :
  k ∉ sorted ->
  StronglySorted Z.lt sorted -> StronglySorted Z.lt (insert_key k sorted).
Proof.
  induction sorted as [|k' sorted IH]; cbn; intros Hnew Hs.
  - repeat constructor.
  - apply StronglySorted_inv in Hs as [Hs Hk'].
    apply not_elem_of_cons in Hnew as [Hne Hnew].
    destruct (Z.leb_spec k k') as [Hle | Hgt].
    + constructor; [now constructor|].
      constructor; [lia|].
      eapply Forall_impl; [exact Hk'|]. cbn. intros z Hz. lia.
    + constructor; [now apply IH|].
      apply Forall_forall. intros z Hz.
      apply elem_of_insert_key in Hz as [-> | Hz]; [lia|].
      rewrite Forall_forall in Hk'. now apply Hk'.
Qed.

Lemma elem_of_sort_keys (keys : list Z) (k : Z) :
  k ∈ foldr insert_key [] keys <-> k ∈ keys.
Proof.
  induction keys as [|k' keys IH]; cbn; [reflexivity|].
  rewrite elem_of_insert_key, elem_of_cons, IH. reflexivity.
Qed.

Lemma sort_keys_sorted (keys : list Z) :
  NoDup keys -> StronglySorted Z.lt (foldr insert_key [] keys).
Proof.
  induction 1 as [|k keys Hk _ IH]; cbn; [constructor|].
  apply insert_key_sorted; [|exact IH]. now rewrite elem_of_sort_keys.
Qed.

(** X12: the rows are visited in strictly ascending row order, every row
    order of the dictionary once and nothing else. *)
Theorem sorted_keys_spec (d : gmap Z (list Entry)) :
  StronglySorted Z.lt (sorted_keys d)
  /\ forall k : Z, k ∈ sorted_keys d <-> is_Some (d !! k).
Proof.
  unfold sorted_keys.
  change (map fst (map_to_list d)) with ((map_to_list d).*1).
  split; [apply sort_keys_sorted, NoDup_fst_map_to_list|].
  intros k. rewrite elem_of_sort_keys, list_elem_of_fmap. split.
  - intros ([k' v] & -> & Hin). apply elem_of_map_to_list in Hin. eauto.
  - intros [v Hv]. exists (k, v). split; [reflexivity|].
    now apply elem_of_map_to_list.
Qed.

End SortFacts.

(** ** Properties of the templates *)

Section TemplateFacts.

Import Grouper.

Lemma split_bar_length (text : string) :
  length (split_bar text) = S (count_bars text).
Proof.
  induction text as [|c text IH]; [reflexivity|]. cbn.
  destruct (Ascii.eqb c bar); cbn; [now rewrite IH|].
  destruct (split_bar text); cbn in *; lia.
Qed.

(** X23: an element is rejected by the two assertions exactly when its row
    does not hold exactly one bar, or its column holds two bars or more. *)
Theorem malformed_iff_bars (elem : Material) :
  malformed elem = true
  <-> count_bars (template_row elem) <> 1%nat
      \/ (2 <= count_bars (template_column elem))%nat.
Proof.
  unfold malformed. rewrite !split_bar_length.
  rewrite orb_true_iff, andb_true_iff, !negb_true_iff, !Nat.eqb_neq. lia.
Qed.

Lemma split_bar_bar_free (text : string) :
  count_bars text = 0%nat -> split_bar text = [text].
Proof.
  induction text as [|c text IH]; [reflexivity|]. cbn.
  destruct (Ascii.eqb c bar); [discriminate|].
  intros H. now rewrite (IH H).
Qed.

Lemma split_bar_app (a b : string) :
  count_bars a = 0%nat ->
  split_bar (a +:+ String bar b) = a :: split_bar b.
Proof.
  induction a as [|c a IH]; [reflexivity|].
  change (String c a +:+ String bar b) with (String c (a +:+ String bar b)).
  cbn. destruct (Ascii.eqb c bar); [discriminate|].
  intros H. now rewrite (IH H).
Qed.

Variable py_int : string -> option Z.

(** X24: for an element whose row is an order, a bar and a name, and whose
    column is an order, a bar and a name, or an order alone, none of these
    parts holding a bar, the body of the loop appends to the bucket of the
    row order the entry with that row name, that column order and that
    column name, the empty name when the column has none; a bucket is
    started when the row order is new, and the other buckets are kept. *)
Theorem add_elem_reads_template d elem (a b c dn : string) (k co : Z) :
  count_bars a = 0%nat -> count_bars b = 0%nat ->
  count_bars c = 0%nat -> count_bars dn = 0%nat ->
  template_row elem = a +:+ String bar b ->
  py_int a = Some k -> py_int c = Some co ->
  (template_column elem = c +:+ String bar dn ->
   add_elem py_int d elem
   = Ok (<[k := default [] (d !! k) ++ [Build_Entry b co dn elem]]> d))
  /\ (template_column elem = c ->
      add_elem py_int d elem
      = Ok (<[k := default [] (d !! k)
                   ++ [Build_Entry b co EmptyString elem]]> d)).
Proof.
  intros Ha Hb Hc Hdn Hrow Hk Hco.
  assert (Hparts : split_bar (template_row elem) = [a; b]).
  { now rewrite Hrow, split_bar_app, split_bar_bar_free. }
  split; intros Hcol; unfold add_elem, int_of; rewrite Hparts; cbn; rewrite Hk; cbn.
  - rewrite Hcol, split_bar_app, split_bar_bar_free by assumption. cbn.
    now rewrite Hco.
  - rewrite Hcol, split_bar_bar_free by assumption. cbn. now rewrite Hco.
Qed.

End TemplateFacts.

Lemma malformed_iff_bars_witness : Grouper.malformed Samples.nameless = true.
Proof.
  apply (proj2 (malformed_iff_bars Samples.nameless)). left. discriminate.
Defined.

Lemma add_elem_reads_template_witness :
  (template_column Samples.copper = "1" +:+ String Grouper.bar "Copper" ->
   Grouper.add_elem Samples.decimal ∅ Samples.copper
   = Ok (<[0 := default [] ((∅ : gmap Z (list Entry)) !! 0)
                ++ [Build_Entry "Metals" 1 "Copper" Samples.copper]]> ∅))
  /\ (template_column Samples.copper = "1" ->
      Grouper.add_elem Samples.decimal ∅ Samples.copper
      = Ok (<[0 := default [] ((∅ : gmap Z (list Entry)) !! 0)
                   ++ [Build_Entry "Metals" 1 EmptyString Samples.copper]]> ∅)).
Proof.
  apply (add_elem_reads_template Samples.decimal ∅ Samples.copper
           "0" "Metals" "1" "Copper" 0 1); reflexivity.
Defined.

(** ** Properties of the row grouper and of the script *)

Section ScriptFacts.

Import Grouper Script.

Variable py_int : string -> option Z.
Variable json_loads : string -> option (list Material).
Variable fmt_values : Material -> string.

(** What a successful pass of the body of [for elem in data] has done: it
    has read both orders and appended the entry of the element to the bucket
    of its row order. *)
Lemma add_elem_ok_inv d elem d' :
  add_elem py_int d elem = Ok d' ->
  exists k co,
    malformed elem = false
    /\ py_int (row_order_text elem) = Some k
    /\ py_int (col_order_text elem) = Some co
    /\ d' = <[k := default [] (d !! k)
                   ++ [Build_Entry (row_name_text elem) co
                         (col_name_text elem) elem]]> d.
Proof.
  unfold add_elem, malformed, row_order_text, col_order_text, row_name_text,
    col_name_text, py_assert, int_of.
  destruct (length (split_bar (template_row elem)) =? 2)%nat; cbn;
    [|discriminate].
  destruct (py_int (nth 0 (split_bar (template_row elem)) EmptyString))
    as [k|]; cbn; [|discriminate].
  destruct (length (split_bar (template_column elem)) =? 2)%nat eqn:H2; cbn.
  - destruct (py_int (nth 0 (split_bar (template_column elem)) EmptyString))
      as [co|]; cbn; [|discriminate].
    intros [= <-]. exists k, co. rewrite andb_false_r. auto.
  - destruct (length (split_bar (template_column elem)) =? 1)%nat; cbn;
      [|discriminate].
    destruct (py_int (nth 0 (split_bar (template_column elem)) EmptyString))
      as [co|]; cbn; [|discriminate].
    intros [= <-]. exists k, co. auto.
Qed.

Lemma add_elem_well_formed d elem :
  well_formed py_int elem = true -> exists d', add_elem py_int d elem = Ok d'.
Proof.
  unfold well_formed, malformed, add_elem, row_order_text, col_order_text,
    py_assert, int_of.
  intros H. apply andb_true_iff in H as [H Hco].
  apply andb_true_iff in H as [Hshape Hro].
  apply bool_decide_eq_true in Hro as [k Hk], Hco as [co Hc].
  rewrite Hk, Hc.
  apply negb_true_iff, orb_false_iff in Hshape as [Hrow Hcol].
  apply negb_false_iff in Hrow. rewrite Hrow. cbn.
  destruct (length (split_bar (template_column elem)) =? 2)%nat; cbn; [eauto|].
  rewrite andb_true_r in Hcol. apply negb_false_iff in Hcol. rewrite Hcol.
  cbn. eauto.
Qed.

Lemma add_elem_ok_well_formed d elem d' :
  add_elem py_int d elem = Ok d' -> well_formed py_int elem = true.
Proof.
  intros H. apply add_elem_ok_inv in H as (k & co & Hshape & Hk & Hc & _).
  unfold well_formed. rewrite Hshape, Hk, Hc. cbn.
  rewrite ?bool_decide_eq_true_2 by eauto. reflexivity.
Qed.

Lemma add_all_ok_iff data : forall d,
  (exists d', add_all py_int d data = Ok d')
  <-> forallb (well_formed py_int) data = true.
Proof.
  induction data as [|x data IH]; intros d; cbn [add_all forallb].
  - split; eauto.
  - rewrite andb_true_iff. split.
    + intros [d' H]. destruct (add_elem py_int d x) as [d1|e] eqn:Hx;
        [|discriminate].
      split; [eapply add_elem_ok_well_formed; eassumption|].
      apply (IH d1). eauto.
    + intros [Hx Hrest]. destruct (add_elem_well_formed d x Hx) as [d1 ->].
      cbn. now apply IH.
Qed.

(** X10: the data is prepared without an exception exactly when every
    element passes both assertions and [int] reads its row order and its
    column order. *)
Theorem prepare_ok_iff data :
  (exists d, prepare py_int data = Ok d)
  <-> forallb (well_formed py_int) data = true.
Proof.
  rewrite <- (add_all_ok_iff data ∅). unfold prepare. split.
  - intros [d H]. destruct (add_all py_int ∅ data); [eauto | discriminate].
  - intros [d ->]. cbn. eauto.
Qed.

Lemma all_entries_insert (d : gmap Z (list Entry)) (k : Z) (e : Entry) :
  all_entries (<[k := default [] (d !! k) ++ [e]]> d) ≡ₚ e :: all_entries d.
Proof.
  unfold all_entries. destruct (d !! k) as [old|] eqn:Hk; cbn [default].
  - rewrite <- insert_delete_eq.
    rewrite map_to_list_insert by apply lookup_delete_eq.
    rewrite <- (map_to_list_delete d k old Hk). cbn.
    rewrite <- app_assoc. cbn.
    rewrite <- Permutation_middle. reflexivity.
  - rewrite map_to_list_insert by assumption. reflexivity.
Qed.

Lemma all_entries_fmap (f : list Entry -> list Entry) (d : gmap Z (list Entry)) :
  (forall v, f v ≡ₚ v) -> all_entries (f <$> d) ≡ₚ all_entries d.
Proof.
  intros Hf. unfold all_entries. rewrite map_to_list_fmap.
  induction (map_to_list d) as [|[k v] l IH]; cbn; [reflexivity|].
  now rewrite IH, Hf.
Qed.

Lemma add_all_entries data : forall d d',
  add_all py_int d data = Ok d' ->
  elem <$> all_entries d' ≡ₚ (elem <$> all_entries d) ++ data.
Proof.
  induction data as [|x data IH]; intros d d'; cbn [add_all].
  - intros [= <-]. now rewrite app_nil_r.
  - destruct (add_elem py_int d x) as [d1|e] eqn:Hx; [|discriminate]. cbn.
    intros Hrest. rewrite (IH _ _ Hrest).
    apply add_elem_ok_inv in Hx as (k & co & _ & _ & _ & ->).
    rewrite all_entries_insert. cbn.
    rewrite <- Permutation_middle. reflexivity.
Qed.

(** X13: when the data is prepared without an exception, the entries of the
    dictionary are the elements of the data, every element once: the
    grouping loses nothing and adds nothing. *)
Theorem prepare_keeps_elements data d :
  prepare py_int data = Ok d -> elem <$> all_entries d ≡ₚ data.
Proof.
  unfold prepare.
  destruct (add_all py_int ∅ data) as [d0|e] eqn:Hall; [|discriminate].
  cbn. intros [= <-].
  rewrite (all_entries_fmap _ _ sorted_by_col_perm).
  rewrite (add_all_entries _ _ _ Hall).
  unfold all_entries. rewrite map_to_list_empty. reflexivity.
Qed.

Lemma add_elem_bucket_ok d elem d' :
  map_Forall (bucket_ok py_int) d ->
  add_elem py_int d elem = Ok d' -> map_Forall (bucket_ok py_int) d'.
Proof.
  intros Hd Hadd.
  apply add_elem_ok_inv in Hadd as (k & co & _ & Hk & Hco & ->).
  apply map_Forall_insert_2; [|exact Hd].
  split; [intros Hnil; now apply app_eq_nil in Hnil as [_ ?]|].
  apply Forall_app. split.
  - destruct (d !! k) as [old|] eqn:Hold; cbn; [|constructor].
    exact (proj2 (Hd k old Hold)).
  - constructor; [|constructor]. repeat split; assumption.
Qed.

Lemma add_all_bucket_ok data : forall d d',
  map_Forall (bucket_ok py_int) d ->
  add_all py_int d data = Ok d' -> map_Forall (bucket_ok py_int) d'.
Proof.
  induction data as [|x data IH]; intros d d' Hd; cbn [add_all].
  - now intros [= <-].
  - destruct (add_elem py_int d x) as [d1|e] eqn:Hx; [|discriminate]. cbn.
    apply IH. eapply add_elem_bucket_ok; eassumption.
Qed.

Lemma prepare_bucket data d k bucket :
  prepare py_int data = Ok d -> d !! k = Some bucket ->
  exists v, bucket = sorted_by_col v /\ bucket_ok py_int k v.
Proof.
  unfold prepare.
  destruct (add_all py_int ∅ data) as [d0|e] eqn:Hall; [|discriminate].
  cbn. intros [= <-] Hk.
  apply lookup_fmap_Some in Hk as (v & <- & Hv).
  exists v. split; [reflexivity|].
  eapply (add_all_bucket_ok data ∅ d0); [apply map_Forall_empty | exact Hall | exact Hv].
Qed.

(** X14: when the data is prepared without an exception, no bucket of the
    dictionary is empty and the column orders of every bucket do not
    decrease from left to right. *)
Theorem prepare_buckets_sorted data d k bucket :
  prepare py_int data = Ok d -> d !! k = Some bucket ->
  bucket <> [] /\ cols_sorted bucket.
Proof.
  intros Hprep Hk.
  destruct (prepare_bucket _ _ _ _ Hprep Hk) as (v & -> & Hne & _).
  split; [|apply sorted_by_col_sorted].
  intros Hnil. apply Hne.
  apply Permutation_nil_r. rewrite <- Hnil. symmetry. apply sorted_by_col_perm.
Qed.

(** X15: when the data is prepared without an exception, every entry of the
    bucket under the row order [k] comes from an element whose row order
    reads as [k], and carries the column order and the two names read from
    the template of that element. *)
Theorem prepare_bucket_entries data d k bucket e :
  prepare py_int data = Ok d -> d !! k = Some bucket -> e ∈ bucket ->
  entry_of_element py_int k e.
Proof.
  intros Hprep Hk He.
  destruct (prepare_bucket _ _ _ _ Hprep Hk) as (v & -> & _ & Hall).
  rewrite sorted_by_col_perm in He.
  rewrite Forall_forall in Hall. now apply Hall.
Qed.

Lemma add_elem_malformed d elem :
  malformed elem = true -> add_elem py_int d elem = Raise AssertionError
                           \/ add_elem py_int d elem = Raise ValueError.
Proof.
  unfold malformed, add_elem. intros Hbad.
  destruct (length (split_bar (template_row elem)) =? 2)%nat; cbn in *;
    [|now left].
  apply andb_true_iff in Hbad as [H1 H2].
  apply negb_true_iff in H1, H2. rewrite H1, H2.
  destruct (int_of py_int _) as [row_order|e] eqn:Hint; cbn; [now left|].
  unfold int_of in Hint. destruct (py_int _); [discriminate|].
  injection Hint as <-. now right.
Qed.

Lemma add_elem_raises d elem e :
  add_elem py_int d elem = Raise e -> e = AssertionError \/ e = ValueError.
Proof.
  unfold add_elem, py_assert, int_of. intros Hraise.
  repeat (match type of Hraise with
          | context [if ?b then _ else _] => destruct b
          | context [match py_int ?t with _ => _ end] => destruct (py_int t)
          end; cbn in Hraise);
    first [discriminate | injection Hraise as <-; auto].
Qed.

Lemma add_all_malformed data : forall d elem,
  elem ∈ data -> malformed elem = true ->
  exists e, add_all py_int d data = Raise e
            /\ (e = AssertionError \/ e = ValueError).
Proof.
  induction data as [|x data IH]; intros d elem Hin Hbad.
  - now apply elem_of_nil in Hin.
  - cbn [add_all].
    destruct (add_elem py_int d x) as [d'|e] eqn:Hx.
    + apply elem_of_cons in Hin as [-> | Hin].
      * destruct (add_elem_malformed d x Hbad); congruence.
      * cbn. eauto.
    + exists e. split; [reflexivity | eapply add_elem_raises; eassumption].
Qed.

(** C8: when the row of some record's template does not split on the bar
    into exactly two parts, or its column into one or two, the run ends with
    an exception raised while the data is prepared; nothing is rendered and
    the files, the output of an earlier run among them, stay as they were. *)
Theorem malformed_template_aborts argv w text data :
  bad_usage argv = false ->
  files w !! nth 1 argv EmptyString = Some text ->
  json_loads (Loader.strip_comments (Loader.readlines text)) = Some data ->
  (exists elem, elem ∈ data /\ malformed elem = true) ->
  exists e,
    main py_int json_loads fmt_values argv w = (Raised e, w)
    /\ prepare py_int data = Raise e
    /\ (e = AssertionError \/ e = ValueError).
Proof.
  intros Husage Hfile Hjson (elem & Hin & Hbad).
  destruct (add_all_malformed data ∅ elem Hin Hbad) as (e & Hraise & He).
  assert (Hprep : prepare py_int data = Raise e).
  { unfold prepare. now rewrite Hraise. }
  exists e. unfold main. rewrite Husage, Hfile, Hjson, Hprep. auto.
Qed.

(** *** The script as a whole *)

(** X16: whatever the arguments and the files, the script leaves every file
    but [materials_template.html] as it was. *)
Theorem main_writes_only_output argv w (path : string) :
  path <> output_path ->
  files (snd (main py_int json_loads fmt_values argv w)) !! path
  = files w !! path.
Proof.
  intros Hpath. unfold main.
  repeat case_match; cbn; try reflexivity.
  now apply lookup_insert_ne.
Qed.



(** X19: the usage text is printed, and the run ends with exit status -1,
    exactly when the argument check fails; otherwise nothing is printed and
    the run does not end through [sys.exit]. *)
Theorem main_usage argv w :
  (bad_usage argv = true ->
   main py_int json_loads fmt_values argv w
   = (Exit (-1), {| stdout := stdout w ++ [usage]; files := files w |}))
  /\ (bad_usage argv = false ->
      stdout (snd (main py_int json_loads fmt_values argv w)) = stdout w
      /\ forall status,
           fst (main py_int json_loads fmt_values argv w) <> Exit status).
Proof.
  unfold main. split; intros ->; [reflexivity|].
  repeat case_match; cbn; split; (reflexivity || discriminate).
Qed.

End ScriptFacts.

Lemma prepare_ok_iff_witness :
  exists d, Grouper.prepare Samples.decimal Samples.catalogue = Ok d.
Proof.
  apply (proj2 (prepare_ok_iff Samples.decimal Samples.catalogue)).
  vm_compute. reflexivity.
Defined.

Lemma prepare_keeps_elements_witness :
  elem <$> Grouper.all_entries Samples.catalogue_dict ≡ₚ Samples.catalogue.
Proof.
  apply (prepare_keeps_elements Samples.decimal Samples.catalogue
           Samples.catalogue_dict).
  vm_compute. reflexivity.
Defined.

Lemma prepare_buckets_sorted_witness :
  [Samples.entry_of "Metals" 0 "Iron" Samples.iron;
   Samples.entry_of "Metals" 1 "Copper" Samples.copper] <> []
  /\ Grouper.cols_sorted
       [Samples.entry_of "Metals" 0 "Iron" Samples.iron;
        Samples.entry_of "Metals" 1 "Copper" Samples.copper].
Proof.
  apply (prepare_buckets_sorted Samples.decimal Samples.catalogue
           Samples.catalogue_dict 0).
  - vm_compute. reflexivity.
  - vm_compute. reflexivity.
Defined.

Lemma prepare_bucket_entries_witness :
  Grouper.entry_of_element Samples.decimal 0
    (Samples.entry_of "Metals" 1 "Copper" Samples.copper).
Proof.
  apply (prepare_bucket_entries Samples.decimal Samples.catalogue
           Samples.catalogue_dict 0
           [Samples.entry_of "Metals" 0 "Iron" Samples.iron;
            Samples.entry_of "Metals" 1 "Copper" Samples.copper]).
  - vm_compute. reflexivity.
  - vm_compute. reflexivity.
  - apply elem_of_cons. right. apply elem_of_cons. now left.
Defined.

Lemma main_writes_only_output_witness :
  Script.files
    (snd (Script.main Samples.decimal Samples.loads_catalogue
            (fun _ => EmptyString) Samples.argv Samples.world))
    !! "materials.json"
  = Script.files Samples.world !! "materials.json".
Proof.
  apply (main_writes_only_output Samples.decimal Samples.loads_catalogue
           (fun _ => EmptyString) Samples.argv Samples.world "materials.json").
  discriminate.
Defined.



Lemma main_usage_witness :
  Script.main Samples.decimal Samples.loads (fun _ => EmptyString)
    ["generate_materials_template.py"; "materials.json"] Samples.world
  = (Script.Exit (-1),
     {| Script.stdout := Script.stdout Samples.world ++ [Script.usage];
        Script.files := Script.files Samples.world |}).
Proof.
  apply (proj1 (main_usage Samples.decimal Samples.loads
                  (fun _ => EmptyString)
                  ["generate_materials_template.py"; "materials.json"]
                  Samples.world)).
  reflexivity.
Defined.

Lemma malformed_template_aborts_witness :
  exists e,
    Script.main Samples.decimal Samples.loads (fun _ => EmptyString)
      Samples.argv Samples.world
    = (Script.Raised e, Samples.world)
    /\ Grouper.prepare Samples.decimal [Samples.iron; Samples.nameless] = Raise e
    /\ (e = AssertionError \/ e = ValueError).
Proof.
  apply (malformed_template_aborts Samples.decimal Samples.loads
           (fun _ => EmptyString) Samples.argv Samples.world "[]").
  - reflexivity.
  - vm_compute. reflexivity.
  - reflexivity.
  - exists Samples.nameless. split; [|reflexivity].
    apply elem_of_cons. right. apply elem_of_cons. now left.
Defined.

(** ** Properties of the renderer *)

Section RendererFacts.

Import Renderer.

Lemma prefix_app (a b : string) : String.prefix a (a +:+ b) = true.
Proof.
  induction a as [|c a IH]; simpl.
  - destruct b; reflexivity.
  - destruct (ascii_dec c c); [exact IH | congruence].
Qed.

Lemma contains_unfold (needle text : string) :
  contains needle text
  = String.prefix needle text
    || match text with
       | EmptyString => false
       | String _ text' => contains needle text'
       end.
Proof. destruct text; reflexivity. Qed.

Lemma contains_here (needle rest : string) :
  contains needle (needle +:+ rest) = true.
Proof. rewrite contains_unfold, prefix_app. reflexivity. Qed.

Lemma contains_app_r (needle before text : string) :
  contains needle text = true -> contains needle (before +:+ text) = true.
Proof.
  intros H. induction before as [|c before IH]; [exact H|].
  rewrite contains_unfold. simpl. rewrite IH. apply orb_true_r.
Qed.

(** A sub-row is the text before it followed by the markup of the cells, in
    order. *)
Lemma add_cells_concat (td : Cell -> string) (row : list Cell) : forall html,
  add_cells td html row = html +:+ foldr String.append EmptyString (td <$> row).
Proof.
  unfold add_cells. induction row as [|c row IH]; intros html; simpl.
  - now rewrite append_empty_r.
  - now rewrite IH, append_assoc.
Qed.

(** C9, as the claim states it, fails: in the row of two records of one
    title, the second material does not come right after a [Label] cell, and
    its markup carries the top-border class all the same. *)
Lemma pair_second_data_has_border_top :
  assemble Samples.pair !! 2%nat = Some (Data (Samples.entry "A" 1))
  /\ after_label (assemble Samples.pair) 2 = false
  /\ has_border_top (color_td (Data (Samples.entry "A" 1))) = true.
Proof. repeat split. Qed.

(** C9 (amended): in the sub-row of colours the markup of every [Data] cell
    carries the top-border class together with the background fill of the
    record's colour key, wherever the cell stands in the row. *)
Theorem every_data_cell_has_border_top (row : list Cell) (i : nat) (v : Entry) :
  row !! i = Some (Data v) ->
  exists markup,
    (color_td <$> row) !! i = Some markup
    /\ has_border_top markup = true
    /\ contains ("bgcolor='" +:+ color_key (elem v) +:+ "'") markup = true.
Proof.
  intros Hi. exists (color_td (Data v)). split; [|split].
  - rewrite list_lookup_fmap, Hi. reflexivity.
  - unfold has_border_top, color_td. cbn [truthy].
    apply (contains_app_r _ "<td bgcolor='"), contains_app_r.
    reflexivity.
  - assert (E : color_td (Data v)
                = "<td " +:+ (("bgcolor='" +:+ color_key (elem v) +:+ "'")
                  +:+ "class='border_top' style='width: 50px;'>&nbsp;</td>")).
    { unfold color_td. cbn [truthy]. rewrite !append_assoc. reflexivity. }
    rewrite E. apply contains_app_r, contains_here.
Qed.

Lemma every_data_cell_has_border_top_witness :
  exists markup,
    (color_td <$> assemble Samples.pair) !! 2%nat = Some markup
    /\ has_border_top markup = true
    /\ contains ("bgcolor='" +:+ color_key (elem (Samples.entry "A" 1)) +:+ "'")
         markup = true.
Proof.
  apply (every_data_cell_has_border_top (assemble Samples.pair) 2
           (Samples.entry "A" 1)).
  reflexivity.
Defined.

End RendererFacts.

(** ** Properties of the document *)

Section DocumentFacts.

Import Renderer Script.

Variable py_int : string -> option Z.
Variable json_loads : string -> option (list Material).

(** X20: in the mode [e] the run does not depend on the masses, strengths
    and stiffnesses of the materials: whatever their texts would be, the
    outcome and the files are the same. *)
Theorem main_esthetic_ignores_values (f g : Material -> string) argv w :
  nth 2 argv EmptyString = "e" ->
  main py_int json_loads f argv w = main py_int json_loads g argv w.
Proof.
  intros Hmode. unfold main. rewrite Hmode.
  change (String.eqb "e" "s") with false.
  repeat case_match; reflexivity.
Qed.

Variable fmt_values : Material -> string.

Lemma render_row_acc (is_structural : bool) (html : string) (row : list Cell) :
  render_row fmt_values is_structural html row
  = html +:+ render_row fmt_values is_structural EmptyString row.
Proof.
  unfold render_row. rewrite !add_cells_concat, !append_assoc. reflexivity.
Qed.

(** X21: the document is the fixed head, with the cell spacing 0 in
    structural mode and 1 otherwise, then one block of three sub-rows for
    every row order of the dictionary, in ascending order, then the fixed
    tail; the block of a row does not depend on the rows before it. *)
Theorem render_document (is_structural : bool) (d : gmap Z (list Entry)) :
  render fmt_values is_structural d
  = ("<html><head><title>Materials Template</title>"
     +:+ "<style>tr.border_top td { border-top:1pt solid black;}</style>"
     +:+ "</head><body>"
     +:+ "<table style='border: 1px solid black' cellpadding=0 cellspacing="
     +:+ (if is_structural then "0" else "1") +:+ ">")
    +:+ foldr String.append EmptyString
          ((fun k => render_row fmt_values is_structural EmptyString
                       (assemble (default [] (d !! k))))
           <$> Grouper.sorted_keys d)
    +:+ "</table></body></html>".
Proof.
  unfold render.
  set (head := _ +:+ ">").
  assert (Hrows : forall keys html,
            fold_left
              (fun html k =>
                 render_row fmt_values is_structural html
                   (assemble (default [] (d !! k)))) keys html
            = html +:+ foldr String.append EmptyString
                ((fun k => render_row fmt_values is_structural EmptyString
                             (assemble (default [] (d !! k)))) <$> keys)).
  { induction keys as [|k keys IH]; intros html; cbn.
    - now rewrite append_empty_r.
    - now rewrite IH, render_row_acc, append_assoc. }
  rewrite Hrows, !append_assoc.
  destruct is_structural; reflexivity.
Qed.

(** X22: the block of a row is an opening tag and the cells of the colours,
    which no closing tag follows, then the cells of the names and the cells
    of the values, each between an opening and a closing tag; every sub-row
    has one cell for every cell of the row, in order. *)
Theorem render_row_block (is_structural : bool) (row : list Cell) :
  render_row fmt_values is_structural EmptyString row
  = "<tr>" +:+ foldr String.append EmptyString (color_td <$> row)
    +:+ "<tr>" +:+ foldr String.append EmptyString (name_td <$> row)
    +:+ "</tr><tr>"
    +:+ foldr String.append EmptyString
          (value_td fmt_values is_structural <$> row)
    +:+ "</tr>".
Proof.
  unfold render_row. rewrite !add_cells_concat, !append_assoc. reflexivity.
Qed.

Lemma add_cells_as_rendered (td : Cell -> string) (row : list Cell) :
  (forall c, td (as_rendered c) = td c) ->
  forall html, add_cells td html (as_rendered <$> row) = add_cells td html row.
Proof.
  intros Htd. unfold add_cells.
  induction row as [|c row IH]; intros html; cbn; [reflexivity|].
  now rewrite Htd, IH.
Qed.

(** X25: a title that is the empty string is rendered like a filler: in
    each of the three sub-rows its cell is the cell of a filler, so the
    block of a row is the same when such titles are fillers in the row. *)
Theorem render_row_empty_title (is_structural : bool) (html : string)
    (row : list Cell) :
  render_row fmt_values is_structural html (as_rendered <$> row)
  = render_row fmt_values is_structural html row.
Proof.
  unfold render_row.
  rewrite !add_cells_as_rendered; [reflexivity | ..];
    intros [[|a t]|v|]; reflexivity.
Qed.

End DocumentFacts.

Lemma main_esthetic_ignores_values_witness :
  Script.main Samples.decimal Samples.loads_catalogue (fun _ => EmptyString)
    Samples.argv_esthetic Samples.world
  = Script.main Samples.decimal Samples.loads_catalogue color_key
      Samples.argv_esthetic Samples.world.
Proof.
  apply (main_esthetic_ignores_values Samples.decimal Samples.loads_catalogue
           (fun _ => EmptyString) color_key Samples.argv_esthetic
           Samples.world).
  reflexivity.
Defined.
